(** * Sisly Resort reservation API: a shallow embedding of [main.py]

    The service is a single SQLite table [reservations] behind six HTTP
    handlers.  The table is modelled as the list of its rows in rowid order
    (the order of a table scan) together with the AUTOINCREMENT counter that
    SQLite keeps in [sqlite_sequence].  Every handler opens a connection, runs
    its statements and commits, so a handler is a function from the database
    before the request to a response and the database after it.

    Python [int] is [Z], [str] is [string], [Optional[str]] is
    [option string] and [float] is an IEEE-754 value ([spec_float]).  The
    clock readings a handler makes ([datetime.utcnow()], SQL [date('now')])
    are arguments of the handler.  An exception no handler catches (the
    driver's OverflowError and IntegrityError) ends the request before
    [conn.commit()], so it leaves the database as it was.  Requests are
    served one at a time. *)

From Stdlib Require Import ZArith List String Ascii Bool Lia.
From Stdlib Require Import Sorted Permutation.
From Stdlib Require Import Floats.SpecFloat.
Import ListNotations.

Local Open Scope string_scope.
Local Open Scope Z_scope.

(** ** Python values *)

Definition float : Type := spec_float.

(** [x or d] for an [Optional[str]] left operand: [None] and the empty
    string are falsy. *)
Definition py_or (x : option string) (d : string) : string :=
  match x with
  | Some s => if (s =? "")%string then d else s
  | None => d
  end.

(** [x if x is not None else d]. *)
Definition if_not_none {A : Type} (x : option A) (d : option A) : option A :=
  match x with
  | Some v => Some v
  | None => d
  end.

(** ** Models (section MODELLER of the source) *)

(** [class ReservationCreate(BaseModel)]. *)
Record ReservationCreate : Type := mkReservationCreate {
  guest_name : string;
  guest_email : string;
  guest_phone : option string;
  check_in : string;
  check_out : string;
  check_in_time : option string;
  check_out_time : option string;
  room_type : string;
  room_count : Z;
  adults : Z;
  children : Z;
  total_price : float;
  payment_status : string;
  special_requests : option string;
  experiences : option string
}.

(** [class Reservation(ReservationCreate)]: the inherited fields and the two
    the store assigns.  A row of the table has the same columns. *)
Record Reservation : Type := mkReservation {
  id : Z;
  booking : ReservationCreate;
  created_at : string
}.

(** ** Failures and response bodies *)

Inductive failure : Type :=
| HTTPException (status_code : Z) (detail : string)
| RequestValidationError
| UnhandledError
| OverflowError
| IntegrityError.

Definition NotFound : failure := HTTPException 404 "Reservation not found".

Inductive result (A : Type) : Type :=
| Ok (a : A)
| Err (e : failure).
Arguments Ok {A} a.
Arguments Err {A} e.

(** [{"status": ..., "deleted_id": ...}]. *)
Record DeleteBody : Type := mkDeleteBody {
  delete_status : string;
  deleted_id : Z
}.

(** [{"status": ..., "to_delete": ..., "deleted_count": ...}]. *)
Record CleanupBody : Type := mkCleanupBody {
  cleanup_status : string;
  to_delete : Z;
  deleted_count : Z
}.

(** ** The environment of the program

    Three library functions decide what the handlers do and are not part of
    the repository: SQLite's [date] and [datetime] on one text argument
    ([None] is SQL NULL) and pydantic's [EmailStr] validator ([None] is a
    validation error, [Some e] the accepted address). *)
Class Env : Type := mkEnv {
  sql_date : string -> option string;
  sql_datetime : string -> option string;
  EmailStr : string -> option string
}.

(** ** SQL values *)

(** [substr(X, 1, n)]: the first [n] characters. *)
Definition substr_1 (s : string) (n : nat) : string := substring 0 n s.

(** [a < b] on TEXT-or-NULL operands, three-valued: NULL when an operand is. *)
Definition sql_lt (a b : option string) : option bool :=
  match a, b with
  | Some x, Some y => Some (x <? y)%string
  | _, _ => None
  end.

(** A WHERE clause keeps a row only when its condition is true. *)
Definition where_holds (c : option bool) : bool :=
  match c with
  | Some true => true
  | _ => false
  end.

(** The sort order of TEXT-or-NULL keys: NULL sorts before every text and
    texts compare bytewise. *)
Definition sql_compare (a b : option string) : comparison :=
  match a, b with
  | None, None => Eq
  | None, Some _ => Lt
  | Some _, None => Gt
  | Some x, Some y => String.compare x y
  end.

Definition sql_key_lt (a b : option string) : bool :=
  match sql_compare a b with
  | Lt => true
  | _ => false
  end.

(** ** The SQLite driver *)

(** The range of an SQLite INTEGER.  [cur.execute] raises OverflowError when
    a Python [int] among its parameters is outside it. *)
Definition int64 (z : Z) : bool := (- 2 ^ 63 <=? z) && (z <? 2 ^ 63).

Definition is_nan (x : float) : bool :=
  match x with
  | S754_nan => true
  | _ => false
  end.

(** The double a REAL column gives back for the double bound to it: a zero
    is held without its sign. *)
Definition real_value (x : float) : float :=
  match x with
  | S754_zero _ => S754_zero false
  | _ => x
  end.

(** The failure of a handler whose statement [... WHERE id = ?] matches no
    row.  [cur.execute] raises OverflowError for an id outside the range of an
    SQLite INTEGER, and otherwise the handler answers 404.  A rowid is within
    that range, so an id outside it matches no row. *)
Definition no_row (reservation_id : Z) : failure :=
  if int64 reservation_id then NotFound else OverflowError.

(** ** The database *)

Record DB : Type := mkDB {
  rows : list Reservation;
  seq : Z
}.

(** [init_db] on a fresh file: the empty table. *)
Definition init_db : DB := mkDB [] 0.

Definition max_rowid (rs : list Reservation) : Z :=
  fold_right (fun r m => Z.max (id r) m) 0 rs.

(** The rowid of an AUTOINCREMENT insert: one more than the largest rowid the
    table has ever held. *)
Definition next_rowid (db : DB) : Z := Z.max (seq db) (max_rowid (rows db)) + 1.

(** [INSERT INTO reservations (...) VALUES (...)]; returns [lastrowid]. *)
Definition insert_row (b : ReservationCreate) (created : string) (db : DB) : Z * DB :=
  let new_id := next_rowid db in
  (new_id, mkDB (rows db ++ [mkReservation new_id b created]) new_id).

(** [SELECT * FROM reservations WHERE id = ?] followed by [fetchone()]. *)
Definition select_by_id (rid : Z) (db : DB) : option Reservation :=
  find (fun r => id r =? rid) (rows db).

(** The three columns the UPDATE statement sets. *)
Definition set_notes (ps : string) (sr ex : option string) (r : Reservation) : Reservation :=
  let b := booking r in
  mkReservation (id r)
    (mkReservationCreate (guest_name b) (guest_email b) (guest_phone b)
       (check_in b) (check_out b) (check_in_time b) (check_out_time b)
       (room_type b) (room_count b) (adults b) (children b) (total_price b)
       ps sr ex)
    (created_at r).

(** [UPDATE reservations SET payment_status = ?, special_requests = ?,
    experiences = ? WHERE id = ?]. *)
Definition update_by_id (ps : string) (sr ex : option string) (rid : Z) (db : DB) : DB :=
  mkDB (map (fun r => if id r =? rid then set_notes ps sr ex r else r) (rows db)) (seq db).

(** [DELETE FROM reservations WHERE id = ?]; returns [rowcount]. *)
Definition delete_by_id (rid : Z) (db : DB) : Z * DB :=
  (Z.of_nat (List.length (filter (fun r => id r =? rid) (rows db))),
   mkDB (filter (fun r => negb (id r =? rid)) (rows db)) (seq db)).

(** [WHERE date(substr(check_out, 1, 10)) < date('now')], with [today] the
    value of [date('now')]. *)
Definition expired {E : Env} (today : string) (r : Reservation) : bool :=
  where_holds (sql_lt (sql_date (substr_1 (check_out (booking r)) 10)) (Some today)).

(** [SELECT COUNT( * ) AS cnt FROM reservations WHERE ...]. *)
Definition count_expired {E : Env} (today : string) (db : DB) : Z :=
  Z.of_nat (List.length (filter (expired today) (rows db))).

(** [DELETE FROM reservations WHERE ...]; returns [rowcount]. *)
Definition delete_expired {E : Env} (today : string) (db : DB) : Z * DB :=
  (Z.of_nat (List.length (filter (expired today) (rows db))),
   mkDB (filter (fun r => negb (expired today r)) (rows db)) (seq db)).

(** [ORDER BY datetime(created_at) DESC]: the rows are taken in scan order
    and each goes behind the rows whose key is not smaller, so rows with equal
    keys keep their scan order. *)
Definition order_key {E : Env} (r : Reservation) : option string := sql_datetime (created_at r).

Fixpoint insert_desc {E : Env} (r : Reservation) (sorted : list Reservation) : list Reservation :=
  match sorted with
  | [] => [r]
  | x :: rest =>
      if sql_key_lt (order_key x) (order_key r)
      then r :: x :: rest
      else x :: insert_desc r rest
  end.

Definition order_by_created_desc {E : Env} (rs : list Reservation) : list Reservation :=
  fold_left (fun sorted r => insert_desc r sorted) rs [].

(** ** The handlers *)

(** The parameters of the INSERT, as the table holds them. *)
Definition inserted_values (b : ReservationCreate) : ReservationCreate :=
  mkReservationCreate (guest_name b) (guest_email b) (guest_phone b)
    (check_in b) (check_out b) (check_in_time b) (check_out_time b)
    (room_type b) (room_count b) (adults b) (children b) (real_value (total_price b))
    (payment_status b) (special_requests b) (Some (py_or (experiences b) "")).

(** [create_reservation(payload)], with [now] the value of
    [datetime.datetime.utcnow().isoformat()].  Binding the parameters of the
    INSERT raises OverflowError for an integer outside the range of an SQLite
    INTEGER; a NaN price is bound as NULL, which the NOT NULL constraint of
    [total_price] refuses with IntegrityError. *)
Definition create_reservation (now : string) (payload : ReservationCreate) (db : DB)
  : result Reservation * DB :=
  if negb (int64 (room_count payload) && int64 (adults payload)
           && int64 (children payload))
  then (Err OverflowError, db)
  else if is_nan (total_price payload)
  then (Err IntegrityError, db)
  else
    let '(new_id, db1) := insert_row (inserted_values payload) now db in
    match select_by_id new_id db1 with
    | Some row => (Ok row, db1)
    | None => (Err UnhandledError, db1)
    end.

(** The request boundary of [POST /api/public/reservations]: the body is
    parsed into a [ReservationCreate] before the handler runs, and a
    [guest_email] the validator refuses ends the request there. *)
Definition post_reservation {E : Env} (now : string) (body : ReservationCreate) (db : DB)
  : result Reservation * DB :=
  match EmailStr (guest_email body) with
  | None => (Err RequestValidationError, db)
  | Some e =>
      let b := body in
      create_reservation now
        (mkReservationCreate (guest_name b) e (guest_phone b)
           (check_in b) (check_out b) (check_in_time b) (check_out_time b)
           (room_type b) (room_count b) (adults b) (children b) (total_price b)
           (payment_status b) (special_requests b) (experiences b))
        db
  end.

(** [list_reservations()]. *)
Definition list_reservations {E : Env} (db : DB) : list Reservation :=
  order_by_created_desc (rows db).

(** [get_reservation(reservation_id)]. *)
Definition get_reservation (reservation_id : Z) (db : DB) : result Reservation :=
  match select_by_id reservation_id db with
  | None => Err (no_row reservation_id)
  | Some row => Ok row
  end.

(** [update_reservation(reservation_id, payment_status, special_requests,
    experiences)]. *)
Definition update_reservation (reservation_id : Z)
    (payment_status' special_requests' experiences' : option string) (db : DB)
  : result Reservation * DB :=
  match select_by_id reservation_id db with
  | None => (Err (no_row reservation_id), db)
  | Some current =>
      let new_payment_status := py_or payment_status' (payment_status (booking current)) in
      let new_special_requests :=
        if_not_none special_requests' (special_requests (booking current)) in
      let new_experiences := if_not_none experiences' (experiences (booking current)) in
      let db1 :=
        update_by_id new_payment_status new_special_requests new_experiences
          reservation_id db in
      match select_by_id reservation_id db1 with
      | Some updated_row => (Ok updated_row, db1)
      | None => (Err UnhandledError, db1)
      end
  end.

(** [delete_reservation(reservation_id)]. *)
Definition delete_reservation (reservation_id : Z) (db : DB) : result DeleteBody * DB :=
  let '(deleted, db1) := delete_by_id reservation_id db in
  if deleted =? 0
  then (Err (no_row reservation_id), db1)
  else (Ok (mkDeleteBody "ok" reservation_id), db1).

(** [cleanup_expired_reservations()].  The two statements each evaluate
    [date('now')]: [today_count] is its value in the SELECT and
    [today_delete] its value in the DELETE. *)
Definition cleanup_expired_reservations {E : Env} (today_count today_delete : string) (db : DB)
  : CleanupBody * DB :=
  let to_delete := count_expired today_count db in
  let '(deleted, db1) := delete_expired today_delete db in
  (mkCleanupBody "ok" to_delete deleted, db1).

(** ** The service as a transition system *)

Inductive request : Type :=
| POST_reservations (now : string) (body : ReservationCreate)
| GET_reservations
| GET_reservation (reservation_id : Z)
| PATCH_reservation (reservation_id : Z)
    (payment_status' special_requests' experiences' : option string)
| DELETE_reservation (reservation_id : Z)
| POST_cleanup_expired (today_count today_delete : string).

Inductive response : Type :=
| Created (r : result Reservation)
| Listed (rs : list Reservation)
| Fetched (r : result Reservation)
| Patched (r : result Reservation)
| Deleted (r : result DeleteBody)
| Cleaned (c : CleanupBody).

Definition handle {E : Env} (q : request) (db : DB) : response * DB :=
  match q with
  | POST_reservations now body =>
      let '(r, db1) := post_reservation now body db in (Created r, db1)
  | GET_reservations => (Listed (list_reservations db), db)
  | GET_reservation rid => (Fetched (get_reservation rid db), db)
  | PATCH_reservation rid ps sr ex =>
      let '(r, db1) := update_reservation rid ps sr ex db in (Patched r, db1)
  | DELETE_reservation rid =>
      let '(r, db1) := delete_reservation rid db in (Deleted r, db1)
  | POST_cleanup_expired t1 t2 =>
      let '(c, db1) := cleanup_expired_reservations t1 t2 db in (Cleaned c, db1)
  end.

(** The responses to a sequence of requests, oldest first, and the database
    they leave. *)
Fixpoint serve {E : Env} (qs : list request) (db : DB) : list response * DB :=
  match qs with
  | [] => ([], db)
  | q :: qs' =>
      let '(a, db1) := handle q db in
      let '(answers, db2) := serve qs' db1 in
      (a :: answers, db2)
  end.

(** The ids handed out by the successful creations of a log. *)
Definition assigned_ids (log : list response) : list Z :=
  flat_map (fun a => match a with Created (Ok r) => [id r] | _ => [] end) log.

(** ** Properties the theorems speak about *)

(** The PRIMARY KEY constraint of the table. *)
Definition primary_key (db : DB) : Prop := NoDup (map id (rows db)).

(** The shape of the table the handlers maintain: rows in increasing rowid
    order, every rowid positive and at most the AUTOINCREMENT counter. *)
Definition well_formed (db : DB) : Prop :=
  StronglySorted Z.lt (map id (rows db))
  /\ Forall (fun i => 0 < i <= seq db) (map id (rows db))
  /\ 0 <= seq db.

(** Two records that agree on every column the UPDATE statement does not
    set. *)
Definition same_outside_notes (r r' : Reservation) : Prop :=
  id r' = id r /\ created_at r' = created_at r /\
  guest_name (booking r') = guest_name (booking r) /\
  guest_email (booking r') = guest_email (booking r) /\
  guest_phone (booking r') = guest_phone (booking r) /\
  check_in (booking r') = check_in (booking r) /\
  check_out (booking r') = check_out (booking r) /\
  check_in_time (booking r') = check_in_time (booking r) /\
  check_out_time (booking r') = check_out_time (booking r) /\
  room_type (booking r') = room_type (booking r) /\
  room_count (booking r') = room_count (booking r) /\
  adults (booking r') = adults (booking r) /\
  children (booking r') = children (booking r) /\
  total_price (booking r') = total_price (booking r).


(** A payload the INSERT accepts: integers within the range of an SQLite
    INTEGER and a price that is not NaN. *)
Definition storable (p : ReservationCreate) : bool :=
  int64 (room_count p) && int64 (adults p) && int64 (children p)
  && negb (is_nan (total_price p)).


(** The check-out date of a record is a date before [today]: [date] reads
    the first ten characters of [check_out] as a date, and that date is
    smaller than [today]. *)
Definition checks_out_before {E : Env} (today : string) (r : Reservation) : Prop :=
  exists d : string,
    sql_date (substr_1 (check_out (booking r)) 10) = Some d
    /\ (d <? today)%string = true.

(** Listing order of the claim: every record is followed only by records
    whose [created_at] text is not greater. *)
Definition created_at_ge (r r' : Reservation) : Prop :=
  (created_at r' <=? created_at r)%string = true.

(** Listing order of the statement: the same on the sort key
    [datetime(created_at)]. *)
Definition order_key_ge {E : Env} (r r' : Reservation) : Prop :=
  sql_key_lt (order_key r) (order_key r') = false.

(** The record has the sort key [k]. *)
Definition has_order_key {E : Env} (k : option string) (r : Reservation) : bool :=
  match sql_compare (order_key r) k with
  | Eq => true
  | _ => false
  end.

(** ** An environment to run the handlers in

    The functions below are the library functions restricted to the texts
    this development evaluates them on: dates ['YYYY-MM-DD'], timestamps in
    the form [isoformat()] prints, and addresses with or without an [@]. *)

Definition is_digit (c : ascii) : bool :=
  ((48 <=? nat_of_ascii c) && (nat_of_ascii c <=? 57))%nat.

Definition two_digits (a b : ascii) : option nat :=
  if is_digit a && is_digit b
  then Some (10 * (nat_of_ascii a - 48) + (nat_of_ascii b - 48))%nat
  else None.

Definition between (lo hi : nat) (o : option nat) : bool :=
  match o with
  | Some n => ((lo <=? n) && (n <=? hi))%nat
  | None => false
  end.

(** ['YYYY-MM-DD'] with a month 01..12 and a day 01..28 is returned as it
    is; everything else is left to NULL here. *)
Definition iso_date (s : string) : option string :=
  match list_ascii_of_string s with
  | [y1; y2; y3; y4; dash1; m1; m2; dash2; d1; d2] =>
      if is_digit y1 && is_digit y2 && is_digit y3 && is_digit y4
         && Ascii.eqb dash1 "-" && Ascii.eqb dash2 "-"
         && between 1 12 (two_digits m1 m2) && between 1 28 (two_digits d1 d2)
      then Some s
      else None
  | _ => None
  end.

(** ['HH:MM:SS'], alone or followed by a fraction ['.ffffff']. *)
Definition iso_time (s : string) : option string :=
  match list_ascii_of_string s with
  | h1 :: h2 :: c1 :: m1 :: m2 :: c2 :: s1 :: s2 :: rest =>
      let fraction_ok :=
        match rest with
        | [] => true
        | dot :: f :: more => Ascii.eqb dot "." && forallb is_digit (f :: more)
        | _ => false
        end in
      if Ascii.eqb c1 ":" && Ascii.eqb c2 ":"
         && between 0 23 (two_digits h1 h2) && between 0 59 (two_digits m1 m2)
         && between 0 59 (two_digits s1 s2) && fraction_ok
      then Some (substring 0 8 s)
      else None
  | _ => None
  end.

(** ['YYYY-MM-DDTHH:MM:SS[.ffffff]'] gives ['YYYY-MM-DD HH:MM:SS']: the
    result of [datetime] has no fraction of a second. *)
Definition iso_datetime (s : string) : option string :=
  match iso_date (substring 0 10 s), get 10 s, iso_time (substring 11 (String.length s - 11) s) with
  | Some d, Some sep, Some t =>
      if Ascii.eqb sep "T" || Ascii.eqb sep " "
      then Some (d ++ " " ++ t)
      else None
  | _, _, _ => None
  end.

(** An address without [@] is refused; the others are passed on unchanged. *)
Definition at_sign_email (s : string) : option string :=
  if existsb (Ascii.eqb "@") (list_ascii_of_string s) then Some s else None.

Definition iso_env : Env := mkEnv iso_date iso_datetime at_sign_email.

(** Sample data. *)
Definition sample_payload : ReservationCreate :=
  mkReservationCreate "Ada Yilmaz" "ada@example.com" None
    "2024-03-08" "2024-03-09" None (Some "11:00")
    "deluxe" 1 2 0 (S754_finite false 5 1) "pending" (Some "late arrival") None.

Definition with_check_out (co : string) (b : ReservationCreate) : ReservationCreate :=
  mkReservationCreate (guest_name b) (guest_email b) (guest_phone b)
    (check_in b) co (check_in_time b) (check_out_time b)
    (room_type b) (room_count b) (adults b) (children b) (total_price b)
    (payment_status b) (special_requests b) (experiences b).

(** The store after two bookings, the first checking out on 2024-03-09 and
    the second on 2024-03-11. *)
Definition two_stays_db : DB :=
  snd (create_reservation "2024-03-01T09:30:00" (with_check_out "2024-03-11 12:00" sample_payload)
         (snd (create_reservation "2024-03-01T09:00:00.000001" sample_payload init_db))).

(** A booking is made, deleted, and the expired bookings are cleaned up. *)
Definition sample_history : list request :=
  [POST_reservations "2024-03-01T09:00:00.000001" sample_payload;
   GET_reservations;
   DELETE_reservation 1;
   POST_cleanup_expired "2024-03-10" "2024-03-10"].

(** The store after two bookings made in the same second. *)
Definition same_second_db : DB :=
  snd (create_reservation "2024-03-10T12:00:00.200000" sample_payload
         (snd (create_reservation "2024-03-10T12:00:00.100000" sample_payload init_db))).

(** * Verification *)

(** ** Rows and their ids *)

Lemma max_rowid_ge (rs : list Reservation) (r : Reservation) :
  In r rs -> id r <= max_rowid rs.
Proof.
  induction rs as [|x rs IH]; simpl; intros Hin.
  - contradiction.
  - destruct Hin as [-> | Hin].
    + lia.
    + specialize (IH Hin). lia.
Qed.

Lemma next_rowid_above_rows (db : DB) (r : Reservation) :
  In r (rows db) -> id r < next_rowid db.
Proof.
  intros Hin. apply max_rowid_ge in Hin. unfold next_rowid. lia.
Qed.

Lemma next_rowid_above_seq (db : DB) : seq db < next_rowid db.
Proof. unfold next_rowid. lia. Qed.

Lemma find_id_none (rid : Z) (rs : list Reservation) :
  find (fun r => id r =? rid) rs = None <-> ~ In rid (map id rs).
Proof.
  induction rs as [|x rs IH]; simpl.
  - tauto.
  - destruct (Z.eqb_spec (id x) rid) as [Heq | Hne].
    + split; [discriminate | intros Hn; exfalso; apply Hn; now left].
    + rewrite IH. tauto.
Qed.

Lemma find_id_some (rid : Z) (rs : list Reservation) (r : Reservation) :
  find (fun x => id x =? rid) rs = Some r -> In r rs /\ id r = rid.
Proof.
  intros Hf. apply find_some in Hf. destruct Hf as [Hin Heq].
  split; [assumption | now apply Z.eqb_eq].
Qed.

Lemma find_id_app_last (rid : Z) (rs : list Reservation) (r : Reservation) :
  ~ In rid (map id rs) -> id r = rid ->
  find (fun x => id x =? rid) (rs ++ [r]) = Some r.
Proof.
  induction rs as [|x rs IH]; simpl; intros Hn Hid.
  - rewrite Hid, Z.eqb_refl. reflexivity.
  - destruct (Z.eqb_spec (id x) rid) as [Heq | Hne].
    + exfalso. apply Hn. now left.
    + apply IH; [tauto | assumption].
Qed.

Lemma filter_id_all (rid : Z) (rs : list Reservation) :
  ~ In rid (map id rs) -> filter (fun r => negb (id r =? rid)) rs = rs.
Proof.
  induction rs as [|x rs IH]; simpl; intros Hn.
  - reflexivity.
  - destruct (Z.eqb_spec (id x) rid) as [Heq | Hne]; simpl.
    + exfalso. apply Hn. now left.
    + f_equal. apply IH. tauto.
Qed.

Lemma filter_id_none (rid : Z) (rs : list Reservation) :
  ~ In rid (map id rs) -> filter (fun r => id r =? rid) rs = [].
Proof.
  induction rs as [|x rs IH]; simpl; intros Hn.
  - reflexivity.
  - destruct (Z.eqb_spec (id x) rid) as [Heq | Hne]; simpl.
    + exfalso. apply Hn. now left.
    + apply IH. tauto.
Qed.

Lemma unique_row (rs : list Reservation) (r r' : Reservation) :
  NoDup (map id rs) -> In r rs -> In r' rs -> id r = id r' -> r = r'.
Proof.
  induction rs as [|x rs IH]; simpl; intros Hnd Hr Hr' Hid.
  - contradiction.
  - inversion Hnd as [|? ? Hx Hnd']; subst.
    destruct Hr as [-> | Hr], Hr' as [-> | Hr'].
    + reflexivity.
    + exfalso. apply Hx. rewrite Hid. now apply in_map.
    + exfalso. apply Hx. rewrite <- Hid. now apply in_map.
    + now apply IH.
Qed.

Lemma set_notes_same (r : Reservation) :
  set_notes (payment_status (booking r)) (special_requests (booking r))
    (experiences (booking r)) r = r.
Proof. destruct r as [i b c]. destruct b. reflexivity. Qed.

Lemma set_notes_frame (ps : string) (sr ex : option string) (r : Reservation) :
  same_outside_notes r (set_notes ps sr ex r).
Proof. unfold same_outside_notes, set_notes. simpl. repeat split. Qed.

Lemma same_outside_notes_refl (r : Reservation) : same_outside_notes r r.
Proof. unfold same_outside_notes. repeat split. Qed.

(** ** The UPDATE statement *)

Lemma select_after_update (ps : string) (sr ex : option string) (rid : Z) (db : DB)
    (cur : Reservation) :
  select_by_id rid db = Some cur ->
  select_by_id rid (update_by_id ps sr ex rid db) = Some (set_notes ps sr ex cur).
Proof.
  unfold select_by_id, update_by_id. simpl.
  induction (rows db) as [|x rs IH]; simpl; intros Hf.
  - discriminate.
  - destruct (Z.eqb_spec (id x) rid) as [Heq | Hne].
    + injection Hf as <-. simpl. rewrite Heq, Z.eqb_refl. reflexivity.
    + simpl. destruct (Z.eqb_spec (id x) rid); [contradiction | now apply IH].
Qed.

Lemma update_reservation_found (rid : Z) (ps sr ex : option string) (db : DB)
    (cur : Reservation) :
  select_by_id rid db = Some cur ->
  let ps' := py_or ps (payment_status (booking cur)) in
  let sr' := if_not_none sr (special_requests (booking cur)) in
  let ex' := if_not_none ex (experiences (booking cur)) in
  update_reservation rid ps sr ex db =
    (Ok (set_notes ps' sr' ex' cur), update_by_id ps' sr' ex' rid db).
Proof.
  intros Hsel. simpl. unfold update_reservation. rewrite Hsel.
  rewrite (select_after_update _ _ _ _ _ _ Hsel). reflexivity.
Qed.

(** C1.  For an existing id, PartialUpdate returns the stored record, in
    which payment_status is replaced exactly when a non-empty value is
    supplied (a supplied empty string and an absent value both keep the stored
    one), while special_requests and experiences are replaced by any supplied
    value, the empty string included, and kept when absent. *)
Theorem update_reservation_replaces_supplied_notes :
  forall (rid : Z) (ps sr ex : option string) (db : DB) (cur : Reservation),
    select_by_id rid db = Some cur ->
    exists (r' : Reservation) (db' : DB),
      update_reservation rid ps sr ex db = (Ok r', db')
      /\ select_by_id rid db' = Some r'
      /\ (forall s, ps = Some s -> s <> "" -> payment_status (booking r') = s)
      /\ (ps = Some "" \/ ps = None ->
          payment_status (booking r') = payment_status (booking cur))
      /\ (forall s, sr = Some s -> special_requests (booking r') = Some s)
      /\ (sr = None -> special_requests (booking r') = special_requests (booking cur))
      /\ (forall s, ex = Some s -> experiences (booking r') = Some s)
      /\ (ex = None -> experiences (booking r') = experiences (booking cur)).
Proof.
  intros rid ps sr ex db cur Hsel.
  eexists. eexists. split.
  - apply update_reservation_found. exact Hsel.
  - split.
    + apply select_after_update. exact Hsel.
    + simpl. repeat split.
      * intros s -> Hs. simpl. destruct (String.eqb_spec s ""); [contradiction | reflexivity].
      * intros [-> | ->]; reflexivity.
      * intros s ->. reflexivity.
      * intros ->. reflexivity.
      * intros s ->. reflexivity.
      * intros ->. reflexivity.
Qed.

Lemma update_reservation_replaces_supplied_notes_witness :
  exists (r' : Reservation) (db' : DB),
    update_reservation 1 (Some "") (Some "") None same_second_db = (Ok r', db')
    /\ payment_status (booking r') = "pending"
    /\ special_requests (booking r') = Some ""
    /\ experiences (booking r') = Some "".
Proof.
  destruct (update_reservation_replaces_supplied_notes 1 (Some "") (Some "") None
              same_second_db
              (mkReservation 1
                 (mkReservationCreate "Ada Yilmaz" "ada@example.com" None
                    "2024-03-08" "2024-03-09" None (Some "11:00")
                    "deluxe" 1 2 0 (S754_finite false 5 1) "pending"
                    (Some "late arrival") (Some ""))
                 "2024-03-10T12:00:00.100000")
              eq_refl)
    as (r' & db' & Hup & _ & _ & Hps & Hsr & _ & _ & Hex).
  exists r', db'. split; [exact Hup |].
  split; [apply Hps; now left |].
  split; [now apply Hsr | now apply Hex].
Defined.

(** C4.  For an existing id and any combination of supplied fields,
    PartialUpdate keeps the table row for row: every row keeps its id,
    created_at and the twelve booking columns other than payment_status,
    special_requests and experiences, a row with another id is unchanged
    altogether, and the AUTOINCREMENT counter is unchanged. *)
Theorem update_reservation_frame :
  forall (rid : Z) (ps sr ex : option string) (db : DB) (cur : Reservation),
    select_by_id rid db = Some cur ->
    exists (r' : Reservation) (db' : DB),
      update_reservation rid ps sr ex db = (Ok r', db')
      /\ same_outside_notes cur r'
      /\ seq db' = seq db
      /\ Forall2 (fun r r2 => same_outside_notes r r2 /\ (id r <> rid -> r2 = r))
           (rows db) (rows db').
Proof.
  intros rid ps sr ex db cur Hsel.
  eexists. eexists. split.
  - apply update_reservation_found. exact Hsel.
  - split; [apply set_notes_frame |]. split; [reflexivity |].
    unfold update_by_id. simpl.
    induction (rows db) as [|x rs IH]; simpl; constructor.
    + destruct (Z.eqb_spec (id x) rid) as [Heq | Hne].
      * split; [apply set_notes_frame | contradiction].
      * split; [apply same_outside_notes_refl | reflexivity].
    + exact IH.
Qed.

Lemma update_reservation_frame_witness :
  exists (r' : Reservation) (db' : DB),
    update_reservation 2 (Some "paid") None (Some "spa") same_second_db = (Ok r', db')
    /\ seq db' = 2
    /\ Forall2 (fun r r2 => same_outside_notes r r2 /\ (id r <> 2 -> r2 = r))
         (rows same_second_db) (rows db').
Proof.
  destruct (update_reservation_frame 2 (Some "paid") None (Some "spa") same_second_db
              (mkReservation 2
                 (mkReservationCreate "Ada Yilmaz" "ada@example.com" None
                    "2024-03-08" "2024-03-09" None (Some "11:00")
                    "deluxe" 1 2 0 (S754_finite false 5 1) "pending"
                    (Some "late arrival") (Some ""))
                 "2024-03-10T12:00:00.200000")
              eq_refl)
    as (r' & db' & Hup & _ & Hseq & Hrows).
  exists r', db'. split; [exact Hup |]. split; [exact Hseq | exact Hrows].
Defined.

Lemma update_by_id_same (rid : Z) (db : DB) (cur : Reservation) :
  primary_key db ->
  select_by_id rid db = Some cur ->
  update_by_id (payment_status (booking cur)) (special_requests (booking cur))
    (experiences (booking cur)) rid db = db.
Proof.
  unfold primary_key, select_by_id, update_by_id.
  destruct db as [rs n]. simpl. intros Hnd Hsel. f_equal.
  apply find_id_some in Hsel. destruct Hsel as [Hin Hid].
  assert (Hall : forall x, In x rs -> id x = rid -> x = cur).
  { intros x Hx Hxid. apply (unique_row rs); try assumption. congruence. }
  clear Hnd Hin.
  induction rs as [|x rs IH]; simpl.
  - reflexivity.
  - rewrite IH by (intros y Hy; apply Hall; now right).
    destruct (Z.eqb_spec (id x) rid) as [Heq | Hne].
    + rewrite (Hall x (or_introl eq_refl) Heq). now rewrite set_notes_same.
    + reflexivity.
Qed.

(** C10.  For an existing id, PartialUpdate with none of the three fields
    supplied returns the stored record and leaves the database as it was. *)
Theorem update_reservation_nothing_supplied :
  forall (rid : Z) (db : DB) (cur : Reservation),
    primary_key db ->
    select_by_id rid db = Some cur ->
    update_reservation rid None None None db = (Ok cur, db).
Proof.
  intros rid db cur Hpk Hsel.
  rewrite (update_reservation_found rid None None None db cur Hsel). simpl.
  rewrite set_notes_same, (update_by_id_same rid db cur Hpk Hsel). reflexivity.
Qed.

Lemma primary_key_same_second_db : primary_key same_second_db.
Proof.
  unfold primary_key. simpl.
  constructor; [simpl; intros [H | []]; discriminate H |].
  constructor; [simpl; tauto | constructor].
Defined.

Lemma update_reservation_nothing_supplied_witness :
  exists cur : Reservation,
    select_by_id 1 same_second_db = Some cur
    /\ update_reservation 1 None None None same_second_db = (Ok cur, same_second_db).
Proof.
  eexists. split; [reflexivity |].
  apply update_reservation_nothing_supplied;
    [exact primary_key_same_second_db | reflexivity].
Defined.

(** ** The DELETE statement *)

Lemma filter_id_length_zero (rid : Z) (rs : list Reservation) :
  Z.of_nat (List.length (filter (fun r => id r =? rid) rs)) = 0 <->
  ~ In rid (map id rs).
Proof.
  induction rs as [|x rs IH]; simpl.
  - tauto.
  - destruct (Z.eqb_spec (id x) rid) as [Heq | Hne]; simpl.
    + split; [lia | intros Hn; exfalso; apply Hn; now left].
    + rewrite IH. tauto.
Qed.

Lemma find_after_delete (rid : Z) (rs : list Reservation) :
  find (fun r => id r =? rid) (filter (fun r => negb (id r =? rid)) rs) = None.
Proof.
  induction rs as [|x rs IH]; simpl.
  - reflexivity.
  - destruct (Z.eqb_spec (id x) rid) as [Heq | Hne]; simpl.
    + exact IH.
    + destruct (Z.eqb_spec (id x) rid); [contradiction | exact IH].
Qed.

(** C5 fails as stated: for an id outside the range of an SQLite INTEGER
    no record has the id, yet Delete does not answer NotFound; the driver
    raises OverflowError binding the id, which no handler catches. *)
Lemma delete_reservation_unbound_id_counterexample :
  select_by_id (2 ^ 63) same_second_db = None
  /\ delete_reservation (2 ^ 63) same_second_db = (Err OverflowError, same_second_db)
  /\ fst (delete_reservation (2 ^ 63) same_second_db) <> Err NotFound
  /\ delete_reservation (- 2 ^ 63 - 1) same_second_db = (Err OverflowError, same_second_db).
Proof.
  split; [reflexivity |]. split; [reflexivity |]. split; [discriminate | reflexivity].
Qed.

(** C5, amended.  For an id within the range of an SQLite INTEGER, Delete
    answers NotFound exactly when no record has the id, and then the database
    is unchanged; when a record has the id, Delete answers with the deleted
    id, no record has the id afterwards, and the records with other ids stay
    as they were, in their order. *)
Theorem delete_reservation_not_found_iff :
  forall (rid : Z) (db : DB),
    int64 rid = true ->
    (fst (delete_reservation rid db) = Err NotFound <-> select_by_id rid db = None)
    /\ (select_by_id rid db = None -> delete_reservation rid db = (Err NotFound, db))
    /\ (select_by_id rid db <> None ->
        exists db' : DB,
          delete_reservation rid db = (Ok (mkDeleteBody "ok" rid), db')
          /\ select_by_id rid db' = None
          /\ rows db' = filter (fun r => negb (id r =? rid)) (rows db)
          /\ (forall r, In r (rows db') <-> In r (rows db) /\ id r <> rid)
          /\ seq db' = seq db).
Proof.
  intros rid db Hrange.
  assert (Hnone : select_by_id rid db = None ->
                  delete_reservation rid db = (Err NotFound, db)).
  { unfold select_by_id, delete_reservation, delete_by_id, no_row. intros Hsel.
    apply find_id_none in Hsel.
    rewrite (filter_id_none rid _ Hsel), (filter_id_all rid _ Hsel), Hrange. simpl.
    destruct db; reflexivity. }
  assert (Hsome : select_by_id rid db <> None ->
                  delete_reservation rid db =
                    (Ok (mkDeleteBody "ok" rid),
                     mkDB (filter (fun r => negb (id r =? rid)) (rows db)) (seq db))).
  { unfold select_by_id, delete_reservation, delete_by_id. intros Hsel.
    rewrite find_id_none in Hsel.
    destruct (Z.eqb_spec
                (Z.of_nat (List.length (filter (fun r => id r =? rid) (rows db)))) 0)
      as [Hz | Hnz].
    - apply filter_id_length_zero in Hz. contradiction.
    - reflexivity. }
  split; [| split].
  - split.
    + intros Hfst. destruct (select_by_id rid db) eqn:Hsel; [| reflexivity].
      rewrite Hsome in Hfst by congruence. discriminate Hfst.
    + intros Hsel. now rewrite (Hnone Hsel).
  - exact Hnone.
  - intros Hsel. eexists. split; [exact (Hsome Hsel) |].
    split; [apply find_after_delete |]. split; [reflexivity |].
    split; [| reflexivity].
    intros r. simpl. rewrite filter_In.
    destruct (Z.eqb_spec (id r) rid); simpl; intuition congruence.
Qed.

Lemma delete_reservation_not_found_iff_witness :
  delete_reservation (2 ^ 63 - 1) same_second_db = (Err NotFound, same_second_db)
  /\ delete_reservation (- 2 ^ 63) same_second_db = (Err NotFound, same_second_db)
  /\ exists db' : DB,
       delete_reservation 1 same_second_db = (Ok (mkDeleteBody "ok" 1), db')
       /\ map id (rows db') = [2].
Proof.
  destruct (delete_reservation_not_found_iff (2 ^ 63 - 1) same_second_db eq_refl)
    as (_ & Hmax & _).
  destruct (delete_reservation_not_found_iff (- 2 ^ 63) same_second_db eq_refl)
    as (_ & Hmin & _).
  destruct (delete_reservation_not_found_iff 1 same_second_db eq_refl) as (_ & _ & Hsome).
  split; [apply Hmax; reflexivity |]. split; [apply Hmin; reflexivity |].
  destruct Hsome as (db' & Hdel & _ & Hrows & _); [discriminate |].
  exists db'. split; [exact Hdel |]. rewrite Hrows. reflexivity.
Defined.

(** ** Create and GetById *)

Lemma next_rowid_fresh (db : DB) : ~ In (next_rowid db) (map id (rows db)).
Proof.
  intros Hin. apply in_map_iff in Hin. destruct Hin as (r & Hid & Hin).
  apply next_rowid_above_rows in Hin. lia.
Qed.

Lemma storable_spec (p : ReservationCreate) :
  storable p = true <->
  negb (int64 (room_count p) && int64 (adults p) && int64 (children p)) = false
  /\ is_nan (total_price p) = false.
Proof.
  unfold storable.
  destruct (int64 (room_count p)), (int64 (adults p)), (int64 (children p)),
    (is_nan (total_price p)); simpl; intuition congruence.
Qed.

Lemma create_reservation_inserts (now : string) (p : ReservationCreate) (db : DB) :
  storable p = true ->
  let row := mkReservation (next_rowid db) (inserted_values p) now in
  create_reservation now p db = (Ok row, mkDB (rows db ++ [row]) (next_rowid db))
  /\ select_by_id (next_rowid db) (mkDB (rows db ++ [row]) (next_rowid db)) = Some row.
Proof.
  intros Hst row. apply storable_spec in Hst. destruct Hst as [Hint Hnan].
  assert (Hsel : select_by_id (next_rowid db) (mkDB (rows db ++ [row]) (next_rowid db))
                 = Some row).
  { unfold select_by_id. simpl.
    apply find_id_app_last; [apply next_rowid_fresh | reflexivity]. }
  split; [| exact Hsel].
  unfold create_reservation, insert_row. rewrite Hint, Hnan. fold row.
  rewrite Hsel. reflexivity.
Qed.

Lemma create_reservation_refused (now : string) (p : ReservationCreate) (db : DB) :
  storable p = false ->
  (create_reservation now p db = (Err OverflowError, db)
   /\ int64 (room_count p) && int64 (adults p) && int64 (children p) = false)
  \/ (create_reservation now p db = (Err IntegrityError, db)
      /\ is_nan (total_price p) = true).
Proof.
  unfold storable, create_reservation. intros Hst.
  destruct (int64 (room_count p) && int64 (adults p) && int64 (children p)); simpl in *.
  - right. destruct (is_nan (total_price p)); [split; reflexivity | discriminate Hst].
  - left. split; reflexivity.
Qed.

(** Create either appends one row with the next rowid, or is refused and
    leaves the database as it was. *)
Lemma create_reservation_cases (now : string) (p : ReservationCreate) (db : DB) :
  (exists r : Reservation,
      create_reservation now p db = (Ok r, mkDB (rows db ++ [r]) (next_rowid db))
      /\ id r = next_rowid db)
  \/ (exists e : failure, create_reservation now p db = (Err e, db)).
Proof.
  destruct (storable p) eqn:Hst.
  - left. destruct (create_reservation_inserts now p db Hst) as [Hc _].
    eexists. split; [exact Hc | reflexivity].
  - right. destruct (create_reservation_refused now p db Hst) as [[Hc _] | [Hc _]];
      eexists; exact Hc.
Qed.





(** C6.  A creation request whose email the validator refuses is answered
    with a validation error and leaves the database exactly as it was. *)
Theorem post_reservation_malformed_email :
  forall (E : Env) (now : string) (body : ReservationCreate) (db : DB),
    EmailStr (guest_email body) = None ->
    post_reservation now body db = (Err RequestValidationError, db).
Proof.
  intros E now body db Hbad. unfold post_reservation. now rewrite Hbad.
Qed.

Lemma post_reservation_malformed_email_witness :
  post_reservation (E := iso_env) "2024-03-10T12:00:00.300000"
    (mkReservationCreate "Ada Yilmaz" "ada.example.com" None
       "2024-03-08" "2024-03-09" None None
       "deluxe" 1 2 0 (S754_finite false 5 1) "pending" None None)
    same_second_db
  = (Err RequestValidationError, same_second_db).
Proof.
  apply (post_reservation_malformed_email iso_env). reflexivity.
Defined.

(** ** Cleanup of expired reservations *)

Lemma string_ltb_asym (a b : string) : (a <? b)%string = true -> (b <? a)%string = false.
Proof.
  unfold String.ltb. rewrite (String.compare_antisym b a).
  destruct (String.compare a b); simpl; congruence.
Qed.

Lemma expired_iff (E : Env) (today : string) (r : Reservation) :
  expired today r = true <-> checks_out_before today r.
Proof.
  unfold expired, checks_out_before, sql_lt, where_holds.
  destruct (sql_date (substr_1 (check_out (booking r)) 10)) as [d|].
  - split.
    + intros H. exists d. split; [reflexivity |].
      destruct (d <? today)%string; [reflexivity | discriminate H].
    + intros (d' & Hd & Hlt). injection Hd as <-. now rewrite Hlt.
  - split; [discriminate | intros (d' & Hd & _); discriminate Hd].
Qed.

Lemma filter_split_length {A : Type} (f : A -> bool) (l : list A) :
  (List.length (filter f l) + List.length (filter (fun x => negb (f x)) l))%nat
  = List.length l.
Proof.
  induction l as [|x l IH]; simpl.
  - reflexivity.
  - destruct (f x); simpl; lia.
Qed.

Lemma cleanup_expired_unfold (E : Env) (t1 t2 : string) (db : DB) :
  cleanup_expired_reservations t1 t2 db =
    (mkCleanupBody "ok"
       (Z.of_nat (List.length (filter (expired t1) (rows db))))
       (Z.of_nat (List.length (filter (expired t2) (rows db)))),
     mkDB (filter (fun r => negb (expired t2 r)) (rows db)) (seq db)).
Proof. reflexivity. Qed.

(** C2.  CleanupExpired always answers with status ok and two counts; the
    records it keeps are exactly those whose check-out date (the first ten
    characters of check_out read as a date) is not before the current date,
    in their order, so a record checking out today or later is kept;
    deleted_count is the number of records removed, to_delete the number
    matched by the count query, and the two agree when both statements see
    the same current date. *)
Theorem cleanup_expired_deletes_exactly_expired :
  forall (E : Env) (today_count today_delete : string) (db : DB),
    exists (body : CleanupBody) (db' : DB),
      cleanup_expired_reservations today_count today_delete db = (body, db')
      /\ cleanup_status body = "ok"
      /\ (forall r, In r (rows db') <->
                    In r (rows db) /\ ~ checks_out_before today_delete r)
      /\ rows db' = filter (fun r => negb (expired today_delete r)) (rows db)
      /\ (forall r d, In r (rows db) ->
            sql_date (substr_1 (check_out (booking r)) 10) = Some d ->
            (today_delete <=? d)%string = true -> In r (rows db'))
      /\ Z.of_nat (List.length (rows db))
         = deleted_count body + Z.of_nat (List.length (rows db'))
      /\ to_delete body
         = Z.of_nat (List.length (filter (expired today_count) (rows db)))
      /\ (today_count = today_delete -> to_delete body = deleted_count body)
      /\ seq db' = seq db.
Proof.
  intros E t1 t2 db. eexists. eexists.
  split; [apply cleanup_expired_unfold |]. simpl.
  assert (Hkeep : forall r,
             In r (filter (fun r => negb (expired t2 r)) (rows db)) <->
             In r (rows db) /\ ~ checks_out_before t2 r).
  { intros r. rewrite filter_In, <- expired_iff.
    destruct (expired t2 r); simpl; intuition congruence. }
  split; [reflexivity |]. split; [exact Hkeep |]. split; [reflexivity |].
  split; [| split; [| split; [reflexivity | split; [| reflexivity]]]].
  - intros r d Hin Hd Hle. apply Hkeep. split; [exact Hin |].
    intros (d' & Hd' & Hlt). rewrite Hd in Hd'. injection Hd' as <-.
    unfold String.ltb in Hlt. unfold String.leb in Hle.
    rewrite (String.compare_antisym d t2) in Hlt.
    destruct (String.compare t2 d); simpl in *; congruence.
  - rewrite <- (filter_split_length (expired t2) (rows db)). lia.
  - intros ->. reflexivity.
Qed.

(** C9.  With exactly two records in the store, one checking out on a date
    before the current date (the day before it, say) and one on a date after
    it (the day after), CleanupExpired deletes the first only and reports
    to_delete = deleted_count = 1; run again on the same date it reports 0 and
    0 and leaves the store as it is. *)
Theorem cleanup_expired_two_records :
  forall (E : Env) (today d1 d2 : string) (r1 r2 : Reservation) (db : DB),
    rows db = [r1; r2] \/ rows db = [r2; r1] ->
    sql_date (substr_1 (check_out (booking r1)) 10) = Some d1 ->
    (d1 <? today)%string = true ->
    sql_date (substr_1 (check_out (booking r2)) 10) = Some d2 ->
    (today <? d2)%string = true ->
    exists db1 : DB,
      cleanup_expired_reservations today today db = (mkCleanupBody "ok" 1 1, db1)
      /\ rows db1 = [r2]
      /\ cleanup_expired_reservations today today db1 = (mkCleanupBody "ok" 0 0, db1).
Proof.
  intros E today d1 d2 r1 r2 db Hrows Hd1 Hlt1 Hd2 Hlt2.
  assert (He1 : expired today r1 = true).
  { apply expired_iff. exists d1. now split. }
  assert (He2 : expired today r2 = false).
  { unfold expired, sql_lt. rewrite Hd2. now rewrite (string_ltb_asym _ _ Hlt2). }
  exists (mkDB [r2] (seq db)).
  rewrite !cleanup_expired_unfold.
  destruct Hrows as [-> | ->]; simpl; rewrite He1, He2; simpl; auto.
Qed.

Lemma cleanup_expired_two_records_witness :
  exists db1 : DB,
    cleanup_expired_reservations (E := iso_env) "2024-03-10" "2024-03-10" two_stays_db
      = (mkCleanupBody "ok" 1 1, db1)
    /\ map id (rows db1) = [2]
    /\ cleanup_expired_reservations (E := iso_env) "2024-03-10" "2024-03-10" db1
       = (mkCleanupBody "ok" 0 0, db1).
Proof.
  destruct (cleanup_expired_two_records iso_env "2024-03-10" "2024-03-09" "2024-03-11"
              (mkReservation 1
                 (mkReservationCreate "Ada Yilmaz" "ada@example.com" None
                    "2024-03-08" "2024-03-09" None (Some "11:00")
                    "deluxe" 1 2 0 (S754_finite false 5 1) "pending"
                    (Some "late arrival") (Some ""))
                 "2024-03-01T09:00:00.000001")
              (mkReservation 2
                 (mkReservationCreate "Ada Yilmaz" "ada@example.com" None
                    "2024-03-08" "2024-03-11 12:00" None (Some "11:00")
                    "deluxe" 1 2 0 (S754_finite false 5 1) "pending"
                    (Some "late arrival") (Some ""))
                 "2024-03-01T09:30:00")
              two_stays_db
              (or_introl eq_refl) eq_refl eq_refl eq_refl eq_refl)
    as (db1 & Hfirst & Hrows & Hsecond).
  exists db1. split; [exact Hfirst |]. split; [now rewrite Hrows | exact Hsecond].
Defined.

(** ** The order of sort keys *)

Lemma ascii_compare_gt_trans (x y z : ascii) :
  Ascii.compare x y = Gt -> Ascii.compare y z = Gt -> Ascii.compare x z = Gt.
Proof.
  unfold Ascii.compare. rewrite !N.compare_gt_iff. lia.
Qed.

Lemma string_compare_ge_trans (a b c : string) :
  String.compare a b <> Lt -> String.compare b c <> Lt -> String.compare a c <> Lt.
Proof.
  revert b c. induction a as [|x a IH]; intros [|y b] [|z c]; simpl;
    try congruence.
  destruct (Ascii.compare x y) eqn:Hxy; try congruence.
  - apply Ascii.compare_eq_iff in Hxy. subst y.
    destruct (Ascii.compare x z); try congruence. apply IH.
  - destruct (Ascii.compare y z) eqn:Hyz; try congruence.
    + apply Ascii.compare_eq_iff in Hyz. subst z. rewrite Hxy. congruence.
    + rewrite (ascii_compare_gt_trans x y z Hxy Hyz). congruence.
Qed.

Lemma sql_key_ge_trans (a b c : option string) :
  sql_key_lt a b = false -> sql_key_lt b c = false -> sql_key_lt a c = false.
Proof.
  unfold sql_key_lt.
  destruct a as [a|], b as [b|], c as [c|]; simpl; try congruence.
  intros Hab Hbc.
  assert (H : String.compare a c <> Lt).
  { apply (string_compare_ge_trans a b c).
    - destruct (String.compare a b); congruence.
    - destruct (String.compare b c); congruence. }
  destruct (String.compare a c); congruence.
Qed.

Lemma sql_key_lt_ge (a b : option string) :
  sql_key_lt a b = true -> sql_key_lt b a = false.
Proof.
  unfold sql_key_lt. destruct a as [a|], b as [b|]; simpl; try congruence.
  rewrite (String.compare_antisym b a). destruct (String.compare a b); simpl; congruence.
Qed.

(** ** The ORDER BY clause *)

Section OrderBy.
Context {E : Env}.

Lemma insert_desc_perm (r : Reservation) (l : list Reservation) :
  Permutation (r :: l) (insert_desc r l).
Proof.
  induction l as [|x l IH]; simpl.
  - apply Permutation_refl.
  - destruct (sql_key_lt (order_key x) (order_key r)).
    + apply Permutation_refl.
    + eapply perm_trans; [apply perm_swap | apply perm_skip, IH].
Qed.

Lemma insert_desc_sorted (r : Reservation) (l : list Reservation) :
  StronglySorted order_key_ge l -> StronglySorted order_key_ge (insert_desc r l).
Proof.
  induction l as [|x l IH]; simpl; intros Hs.
  - repeat constructor.
  - inversion Hs as [|? ? Hl Hx]; subst.
    destruct (sql_key_lt (order_key x) (order_key r)) eqn:Hlt.
    + constructor; [exact Hs |].
      assert (Hrx : order_key_ge r x) by (apply sql_key_lt_ge; exact Hlt).
      constructor; [exact Hrx |].
      eapply Forall_impl; [| exact Hx].
      intros y Hxy. unfold order_key_ge in *. eapply sql_key_ge_trans; eassumption.
    + constructor; [apply IH; exact Hl |].
      apply Forall_forall. intros y Hy.
      apply (Permutation_in _ (Permutation_sym (insert_desc_perm r l))) in Hy.
      destruct Hy as [<- | Hy]; [exact Hlt |].
      rewrite Forall_forall in Hx. now apply Hx.
Qed.

Lemma order_fold_perm (rs acc : list Reservation) :
  Permutation (rs ++ acc) (fold_left (fun sorted r => insert_desc r sorted) rs acc).
Proof.
  revert acc. induction rs as [|r rs IH]; simpl; intros acc.
  - apply Permutation_refl.
  - eapply perm_trans; [| apply IH].
    eapply perm_trans; [apply Permutation_middle |].
    apply Permutation_app_head, insert_desc_perm.
Qed.

Lemma order_fold_sorted (rs acc : list Reservation) :
  StronglySorted order_key_ge acc ->
  StronglySorted order_key_ge (fold_left (fun sorted r => insert_desc r sorted) rs acc).
Proof.
  revert acc. induction rs as [|r rs IH]; simpl; intros acc Hs.
  - exact Hs.
  - apply IH, insert_desc_sorted, Hs.
Qed.

Lemma sql_compare_eq (a b : option string) : sql_compare a b = Eq -> a = b.
Proof.
  destruct a as [a|], b as [b|]; simpl; try congruence.
  intros H. now rewrite (String.compare_eq_iff a b H).
Qed.

Lemma insert_desc_stable (k : option string) (r : Reservation) (l : list Reservation) :
  StronglySorted order_key_ge l ->
  filter (has_order_key k) (insert_desc r l)
  = (filter (has_order_key k) l ++ filter (has_order_key k) [r])%list.
Proof.
  induction l as [|x l IH]; intros Hs.
  - reflexivity.
  - inversion Hs as [|? ? Hl Hx]; subst.
    cbn [insert_desc].
    destruct (sql_key_lt (order_key x) (order_key r)) eqn:Hlt.
    + assert (Hnone : has_order_key k r = true ->
                      forall y, In y (x :: l) -> has_order_key k y = false).
      { intros Hk y Hy. unfold has_order_key in *.
        destruct (sql_compare (order_key r) k) eqn:Hrk; try discriminate Hk.
        apply sql_compare_eq in Hrk. subst k.
        destruct (sql_compare (order_key y) (order_key r)) eqn:Hyr; try reflexivity.
        apply sql_compare_eq in Hyr.
        assert (Hxy : sql_key_lt (order_key x) (order_key y) = false).
        { destruct Hy as [<- | Hy].
          - rewrite Hyr in Hlt. rewrite (sql_key_lt_ge _ _ Hlt) in Hlt. discriminate Hlt.
          - rewrite Forall_forall in Hx. now apply Hx. }
        rewrite Hyr in Hxy. congruence. }
      clear - Hnone. remember (x :: l) as m eqn:Hm. clear Hm.
      cbn [filter]. destruct (has_order_key k r); [| now rewrite app_nil_r].
      specialize (Hnone eq_refl).
      assert (Hempty : filter (has_order_key k) m = []).
      { induction m as [|y t IHt]; [reflexivity |].
        simpl. rewrite (Hnone y (or_introl eq_refl)).
        apply IHt. intros z Hz. apply Hnone. now right. }
      rewrite Hempty. reflexivity.
    + cbn [filter]. rewrite (IH Hl).
      destruct (has_order_key k x); reflexivity.
Qed.

Lemma order_fold_stable (k : option string) (rs acc : list Reservation) :
  StronglySorted order_key_ge acc ->
  filter (has_order_key k) (fold_left (fun sorted r => insert_desc r sorted) rs acc)
  = (filter (has_order_key k) acc ++ filter (has_order_key k) rs)%list.
Proof.
  revert acc. induction rs as [|r rs IH]; intros acc Hs.
  - simpl. now rewrite app_nil_r.
  - cbn [fold_left]. rewrite (IH _ (insert_desc_sorted r acc Hs)).
    rewrite (insert_desc_stable k r acc Hs), <- app_assoc. f_equal.
    cbn [filter]. destruct (has_order_key k r); reflexivity.
Qed.

(** Records with the same sort key are listed in the order of the table
    scan. *)
Lemma list_reservations_stable (k : option string) (db : DB) :
  filter (has_order_key k) (list_reservations db) = filter (has_order_key k) (rows db).
Proof.
  unfold list_reservations, order_by_created_desc.
  rewrite order_fold_stable by constructor. reflexivity.
Qed.

End OrderBy.

(** C7 fails as stated: two bookings made within one second have the same
    sort key, keep their scan order in the listing, and so the earlier one,
    whose created_at is smaller, is listed first. *)
Lemma list_reservations_same_second_counterexample :
  map created_at (list_reservations (E := iso_env) same_second_db)
    = ["2024-03-10T12:00:00.100000"; "2024-03-10T12:00:00.200000"]
  /\ ~ StronglySorted created_at_ge (list_reservations (E := iso_env) same_second_db).
Proof.
  split; [reflexivity |].
  intros Hs. inversion Hs as [|? ? _ Hall]; subst.
  inversion Hall as [|? ? Hge _]; subst.
  unfold created_at_ge in Hge. simpl in Hge. discriminate Hge.
Qed.

(** C7, amended.  ListAll always answers: with the empty sequence on an
    empty store, and otherwise with all stored records, each once, ordered by
    the sort key datetime(created_at), the creation time to the second, in
    non-increasing order. *)
Theorem list_reservations_sorted_by_datetime :
  forall (E : Env) (db : DB),
    Permutation (rows db) (list_reservations db)
    /\ StronglySorted order_key_ge (list_reservations db)
    /\ (rows db = [] -> list_reservations db = []).
Proof.
  intros E db. unfold list_reservations, order_by_created_desc.
  split; [| split].
  - rewrite <- (app_nil_r (rows db)) at 1. apply order_fold_perm.
  - apply order_fold_sorted. constructor.
  - intros ->. reflexivity.
Qed.

(** ** Ids over the life of the service *)

Section Ids.
Context {E : Env}.

Lemma post_reservation_ok (now : string) (body : ReservationCreate) (db db' : DB)
    (r : Reservation) :
  post_reservation now body db = (Ok r, db') ->
  id r = next_rowid db /\ rows db' = (rows db ++ [r])%list /\ seq db' = id r.
Proof.
  unfold post_reservation. destruct (EmailStr (guest_email body)) as [e|].
  - match goal with
    | |- create_reservation ?n ?p ?d = _ -> _ =>
        destruct (create_reservation_cases n p d) as [(x & Hc & Hx) | (err & Hc)];
          rewrite Hc
    end.
    + intros Heq. injection Heq as <- <-. simpl. auto.
    + discriminate.
  - discriminate.
Qed.

Lemma post_reservation_seq (now : string) (body : ReservationCreate) (db : DB) :
  seq db <= seq (snd (post_reservation now body db)).
Proof.
  unfold post_reservation. destruct (EmailStr (guest_email body)) as [e|].
  - match goal with
    | |- context [create_reservation ?n ?p ?d] =>
        destruct (create_reservation_cases n p d) as [(x & Hc & Hx) | (err & Hc)];
          rewrite Hc
    end.
    + simpl. pose proof (next_rowid_above_seq db). lia.
    + simpl. lia.
  - simpl. lia.
Qed.

Lemma update_reservation_seq (rid : Z) (ps sr ex : option string) (db : DB) :
  seq (snd (update_reservation rid ps sr ex db)) = seq db.
Proof.
  destruct (select_by_id rid db) as [cur|] eqn:Hsel.
  - now rewrite (update_reservation_found rid ps sr ex db cur Hsel).
  - unfold update_reservation. now rewrite Hsel.
Qed.

Lemma delete_reservation_seq (rid : Z) (db : DB) :
  seq (snd (delete_reservation rid db)) = seq db.
Proof.
  unfold delete_reservation, delete_by_id.
  destruct (_ =? 0); reflexivity.
Qed.

Lemma handle_seq (q : request) (db : DB) : seq db <= seq (snd (handle q db)).
Proof.
  destruct q as [now body | | rid | rid ps sr ex | rid | t1 t2]; simpl.
  - pose proof (post_reservation_seq now body db) as H.
    destruct (post_reservation now body db). exact H.
  - lia.
  - lia.
  - pose proof (update_reservation_seq rid ps sr ex db) as H.
    destruct (update_reservation rid ps sr ex db). simpl in *. lia.
  - pose proof (delete_reservation_seq rid db) as H.
    destruct (delete_reservation rid db). simpl in *. lia.
  - lia.
Qed.

Lemma handle_assigned (q : request) (db : DB) :
  Forall (fun i => seq db < i <= seq (snd (handle q db)))
    (assigned_ids [fst (handle q db)]).
Proof.
  destruct q as [now body | | rid | rid ps sr ex | rid | t1 t2]; simpl;
    try constructor.
  - destruct (post_reservation now body db) as [res db1] eqn:Hpost.
    destruct res as [r | e]; simpl; constructor; [| constructor].
    apply post_reservation_ok in Hpost. destruct Hpost as (Hid & _ & Hseq).
    pose proof (next_rowid_above_seq db). lia.
  - destruct (update_reservation rid ps sr ex db). constructor.
  - destruct (delete_reservation rid db). constructor.
Qed.

Lemma serve_cons (q : request) (qs : list request) (db : DB) :
  serve (q :: qs) db =
    (fst (handle q db) :: fst (serve qs (snd (handle q db))),
     snd (serve qs (snd (handle q db)))).
Proof.
  simpl. destruct (handle q db) as [a db1]. simpl.
  destruct (serve qs db1). reflexivity.
Qed.

Lemma serve_app (qs qs' : list request) (db : DB) :
  fst (serve (qs ++ qs') db)
    = (fst (serve qs db) ++ fst (serve qs' (snd (serve qs db))))%list
  /\ snd (serve (qs ++ qs') db) = snd (serve qs' (snd (serve qs db))).
Proof.
  revert db. induction qs as [|q qs IH]; intros db.
  - split; reflexivity.
  - rewrite <- app_comm_cons, !serve_cons. simpl.
    destruct (IH (snd (handle q db))) as [-> ->]. split; reflexivity.
Qed.

Lemma assigned_ids_cons (a : response) (log : list response) :
  assigned_ids (a :: log) = (assigned_ids [a] ++ assigned_ids log)%list.
Proof. unfold assigned_ids. simpl. now rewrite app_nil_r. Qed.

(** Every id a run hands out lies above the counter it started from and at
    or below the counter it ends with, and the ids come out increasing. *)
Lemma serve_assigned (qs : list request) (db : DB) :
  seq db <= seq (snd (serve qs db))
  /\ Forall (fun i => seq db < i <= seq (snd (serve qs db))) (assigned_ids (fst (serve qs db)))
  /\ StronglySorted Z.lt (assigned_ids (fst (serve qs db))).
Proof.
  revert db. induction qs as [|q qs IH]; intros db.
  - simpl. split; [lia | split; constructor].
  - rewrite serve_cons. simpl fst. simpl snd. rewrite assigned_ids_cons.
    pose proof (handle_seq q db) as Hq.
    pose proof (handle_assigned q db) as Ha.
    destruct (IH (snd (handle q db))) as (Hseq & Hall & Hsorted).
    split; [lia |]. split.
    + apply Forall_app. split.
      * eapply Forall_impl; [| exact Ha]. simpl. intros i Hi. lia.
      * eapply Forall_impl; [| exact Hall]. simpl. intros i Hi. lia.
    + destruct (assigned_ids [fst (handle q db)]) as [|i [|j l]] eqn:Hone.
      * exact Hsorted.
      * simpl. constructor; [exact Hsorted |].
        inversion Ha as [|? ? Hi _]; subst.
        eapply Forall_impl; [| exact Hall]. simpl. intros k Hk. lia.
      * exfalso. clear - Hone. unfold assigned_ids in Hone. simpl in Hone.
        destruct (fst (handle q db)) as [[r|e]| | | | |]; discriminate Hone.
Qed.

Lemma map_id_update (ps : string) (sr ex : option string) (rid : Z)
    (rs : list Reservation) :
  map id (map (fun r => if id r =? rid then set_notes ps sr ex r else r) rs) = map id rs.
Proof.
  induction rs as [|x rs IH]; simpl; [reflexivity |].
  rewrite IH. destruct (id x =? rid); reflexivity.
Qed.

Lemma NoDup_map_id_filter (f : Reservation -> bool) (rs : list Reservation) :
  NoDup (map id rs) -> NoDup (map id (filter f rs)).
Proof.
  induction rs as [|x rs IH]; simpl; intros Hnd; [constructor |].
  inversion Hnd as [|? ? Hx Hnd']; subst.
  destruct (f x); simpl; [| now apply IH].
  constructor; [| now apply IH].
  intros Hin. apply Hx. apply in_map_iff in Hin. destruct Hin as (y & Hy & Hin).
  apply filter_In in Hin. rewrite <- Hy. apply in_map. tauto.
Qed.

Lemma NoDup_map_id_snoc (rs : list Reservation) (r : Reservation) :
  NoDup (map id rs) -> ~ In (id r) (map id rs) -> NoDup (map id (rs ++ [r])).
Proof.
  induction rs as [|x rs IH]; simpl; intros Hnd Hn.
  - constructor; [tauto | constructor].
  - inversion Hnd as [|? ? Hx Hnd']; subst.
    constructor.
    + rewrite map_app, in_app_iff. simpl. intuition.
    + apply IH; tauto.
Qed.

(** Every handler keeps the PRIMARY KEY constraint. *)
Lemma handle_primary_key (q : request) (db : DB) :
  primary_key db -> primary_key (snd (handle q db)).
Proof.
  unfold primary_key. intros Hpk.
  destruct q as [now body | | rid | rid ps sr ex | rid | t1 t2]; simpl;
    try exact Hpk.
  - destruct (post_reservation now body db) as [[r|e] db1] eqn:Hpost; simpl.
    + apply post_reservation_ok in Hpost. destruct Hpost as (Hid & -> & _).
      apply NoDup_map_id_snoc; [exact Hpk |]. rewrite Hid. apply next_rowid_fresh.
    + unfold post_reservation in Hpost.
      destruct (EmailStr (guest_email body)).
      * match type of Hpost with
        | create_reservation ?n ?p ?d = _ =>
            destruct (create_reservation_cases n p d) as [(x & Hc & Hx) | (err & Hc)];
            rewrite Hc in Hpost
        end.
        -- discriminate Hpost.
        -- injection Hpost as _ <-. exact Hpk.
      * injection Hpost as _ <-. exact Hpk.
  - destruct (select_by_id rid db) as [cur|] eqn:Hsel.
    + rewrite (update_reservation_found rid ps sr ex db cur Hsel). simpl.
      now rewrite map_id_update.
    + unfold update_reservation. now rewrite Hsel.
  - unfold delete_reservation, delete_by_id.
    destruct (_ =? 0); simpl; now apply NoDup_map_id_filter.
  - now apply NoDup_map_id_filter.
Qed.

Lemma serve_primary_key (qs : list request) (db : DB) :
  primary_key db -> primary_key (snd (serve qs db)).
Proof.
  revert db. induction qs as [|q qs IH]; intros db Hpk.
  - exact Hpk.
  - rewrite serve_cons. simpl. apply IH, handle_primary_key, Hpk.
Qed.

End Ids.

Lemma StronglySorted_snoc (l : list Z) (x : Z) :
  StronglySorted Z.lt l -> Forall (fun i => i < x) l -> StronglySorted Z.lt (l ++ [x]).
Proof.
  induction l as [|y l IH]; simpl; intros Hs Hall.
  - repeat constructor.
  - inversion Hs as [|? ? Hl Hy]; subst. inversion Hall as [|? ? Hyx Hall']; subst.
    constructor; [now apply IH |].
    apply Forall_app. split; [exact Hy | now constructor].
Qed.

(** C8.  After any sequence of requests served from the empty store, a
    successful Create assigns an id greater than every id assigned before,
    whether or not the record that carried it has since been deleted, and
    greater than every id in the store; the new record is the only one in the
    store with its id, and ids stay unique across the store. *)
Theorem create_assigns_fresh_increasing_id :
  forall (E : Env) (history : list request) (now : string) (body : ReservationCreate)
         (r : Reservation) (db' : DB),
    post_reservation now body (snd (serve history init_db)) = (Ok r, db') ->
    Forall (fun i => i < id r) (assigned_ids (fst (serve history init_db)))
    /\ Forall (fun x => id x < id r) (rows (snd (serve history init_db)))
    /\ filter (fun x => id x =? id r) (rows db') = [r]
    /\ primary_key db'
    /\ StronglySorted Z.lt (assigned_ids (fst (serve history init_db)) ++ [id r]).
Proof.
  intros E history now body r db' Hpost.
  apply post_reservation_ok in Hpost. destruct Hpost as (Hid & Hrows & Hseq).
  destruct (serve_assigned history init_db) as (_ & Hall & Hsorted).
  pose proof (next_rowid_above_seq (snd (serve history init_db))) as Hnext.
  assert (Hbefore : Forall (fun i => i < id r)
                      (assigned_ids (fst (serve history init_db)))).
  { eapply Forall_impl; [| exact Hall]. simpl. intros i Hi. lia. }
  assert (Hfresh : ~ In (id r) (map id (rows (snd (serve history init_db))))).
  { rewrite Hid. apply next_rowid_fresh. }
  split; [exact Hbefore |]. split; [| split; [| split]].
  - apply Forall_forall. intros x Hx. rewrite Hid. now apply next_rowid_above_rows.
  - rewrite Hrows, filter_app, (filter_id_none _ _ Hfresh). simpl.
    now rewrite Z.eqb_refl.
  - unfold primary_key. rewrite Hrows. apply NoDup_map_id_snoc; [| exact Hfresh].
    apply (serve_primary_key history init_db). constructor.
  - now apply StronglySorted_snoc.
Qed.

Lemma create_assigns_fresh_increasing_id_witness :
  exists (r : Reservation) (db' : DB),
    post_reservation (E := iso_env) "2024-03-10T12:00:00.100000" sample_payload
      (snd (serve (E := iso_env) sample_history init_db)) = (Ok r, db')
    /\ assigned_ids (fst (serve (E := iso_env) sample_history init_db)) = [1]
    /\ rows (snd (serve (E := iso_env) sample_history init_db)) = []
    /\ id r = 2
    /\ Forall (fun i => i < id r)
         (assigned_ids (fst (serve (E := iso_env) sample_history init_db))).
Proof.
  eexists. eexists. split; [reflexivity |].
  split; [reflexivity |]. split; [reflexivity |]. split; [reflexivity |].
  apply (create_assigns_fresh_increasing_id iso_env sample_history
           "2024-03-10T12:00:00.100000" sample_payload _ _ eq_refl).
Defined.

(** * Further properties of the handlers *)

(** ** GetById *)

Lemma no_row_cases (rid : Z) :
  (int64 rid = true /\ no_row rid = NotFound)
  \/ (int64 rid = false /\ no_row rid = OverflowError).
Proof. unfold no_row. destruct (int64 rid); [left | right]; split; reflexivity. Qed.

(** On a table whose rowids are within the range of an SQLite INTEGER, as
    those of every table are, an id outside the range matches no row. *)
Lemma unbound_id_matches_no_row (rid : Z) (db : DB) :
  Forall (fun i => int64 i = true) (map id (rows db)) ->
  int64 rid = false ->
  ~ In rid (map id (rows db)).
Proof.
  intros Hall Hrid Hin. rewrite Forall_forall in Hall.
  rewrite (Hall rid Hin) in Hrid. discriminate Hrid.
Qed.

(** X1.  GetById answers with a stored row that has the id when there is
    one.  When no row has the id it answers NotFound if the id is within the
    range of an SQLite INTEGER, and fails with the driver's OverflowError if
    it is not. *)
Theorem get_reservation_not_found_iff :
  forall (rid : Z) (db : DB),
    (get_reservation rid db = Err NotFound
     <-> ~ In rid (map id (rows db)) /\ int64 rid = true)
    /\ (get_reservation rid db = Err OverflowError
        <-> ~ In rid (map id (rows db)) /\ int64 rid = false)
    /\ (In rid (map id (rows db)) ->
        exists r : Reservation,
          get_reservation rid db = Ok r /\ In r (rows db) /\ id r = rid).
Proof.
  intros rid db. unfold get_reservation, select_by_id.
  destruct (find (fun r => id r =? rid) (rows db)) as [r|] eqn:Hf.
  - pose proof (find_id_some rid (rows db) r Hf) as [Hin Hid].
    assert (Hmem : In rid (map id (rows db))) by (rewrite <- Hid; now apply in_map).
    split; [split; [discriminate | tauto] |].
    split; [split; [discriminate | tauto] |].
    intros _. exists r. auto.
  - apply find_id_none in Hf.
    destruct (no_row_cases rid) as [[Hr ->] | [Hr ->]]; rewrite Hr;
      (split; [| split]); try tauto;
      split; try discriminate; intros [_ H]; discriminate H.
Qed.

(** X2.  Under the PRIMARY KEY constraint every stored row is the one
    GetById returns for its id. *)
Theorem get_reservation_stored_row :
  forall (db : DB) (r : Reservation),
    primary_key db -> In r (rows db) -> get_reservation (id r) db = Ok r.
Proof.
  intros db r Hpk Hin. unfold get_reservation, select_by_id.
  destruct (find (fun x => id x =? id r) (rows db)) as [x|] eqn:Hf.
  - apply find_id_some in Hf. destruct Hf as [Hx Hid].
    now rewrite (unique_row (rows db) x r Hpk Hx Hin Hid).
  - apply find_id_none in Hf. exfalso. apply Hf. now apply in_map.
Qed.

Lemma get_reservation_stored_row_witness :
  get_reservation 2 same_second_db
  = Ok (mkReservation 2
          (mkReservationCreate "Ada Yilmaz" "ada@example.com" None
             "2024-03-08" "2024-03-09" None (Some "11:00")
             "deluxe" 1 2 0 (S754_finite false 5 1) "pending"
             (Some "late arrival") (Some ""))
          "2024-03-10T12:00:00.200000").
Proof.
  apply (get_reservation_stored_row same_second_db
           (mkReservation 2
              (mkReservationCreate "Ada Yilmaz" "ada@example.com" None
                 "2024-03-08" "2024-03-09" None (Some "11:00")
                 "deluxe" 1 2 0 (S754_finite false 5 1) "pending"
                 (Some "late arrival") (Some ""))
              "2024-03-10T12:00:00.200000")
           primary_key_same_second_db).
  simpl. right. left. reflexivity.
Defined.

(** ** PartialUpdate *)

Lemma py_or_absorb (x : option string) (d : string) : py_or x (py_or x d) = py_or x d.
Proof.
  destruct x as [s|]; simpl; [| reflexivity].
  destruct (s =? "")%string; reflexivity.
Qed.

Lemma if_not_none_absorb {A : Type} (x d : option A) :
  if_not_none x (if_not_none x d) = if_not_none x d.
Proof. destruct x; reflexivity. Qed.

Lemma update_by_id_twice (ps : string) (sr ex : option string) (rid : Z) (db : DB) :
  update_by_id ps sr ex rid (update_by_id ps sr ex rid db) = update_by_id ps sr ex rid db.
Proof.
  unfold update_by_id. simpl. f_equal. rewrite map_map.
  apply map_ext. intros r.
  destruct (Z.eqb_spec (id r) rid) as [Heq | Hne].
  - simpl. destruct (Z.eqb_spec (id r) rid); [reflexivity | contradiction].
  - destruct (Z.eqb_spec (id r) rid); [contradiction | reflexivity].
Qed.

(** X3.  PartialUpdate answers with a record carrying the id whenever a row
    has the id, so the read-back after the UPDATE never comes back empty.
    When no row has the id it leaves the database unchanged and answers
    NotFound if the id is within the range of an SQLite INTEGER, and fails
    with the driver's OverflowError if it is not. *)
Theorem update_reservation_not_found_iff :
  forall (rid : Z) (ps sr ex : option string) (db : DB),
    (fst (update_reservation rid ps sr ex db) = Err NotFound
     <-> ~ In rid (map id (rows db)) /\ int64 rid = true)
    /\ (fst (update_reservation rid ps sr ex db) = Err OverflowError
        <-> ~ In rid (map id (rows db)) /\ int64 rid = false)
    /\ (~ In rid (map id (rows db)) ->
        snd (update_reservation rid ps sr ex db) = db)
    /\ (In rid (map id (rows db)) ->
        exists r' : Reservation,
          fst (update_reservation rid ps sr ex db) = Ok r' /\ id r' = rid).
Proof.
  intros rid ps sr ex db.
  destruct (select_by_id rid db) as [cur|] eqn:Hsel.
  - pose proof (find_id_some rid (rows db) cur Hsel) as [Hin Hid].
    assert (Hmem : In rid (map id (rows db))) by (rewrite <- Hid; now apply in_map).
    rewrite (update_reservation_found rid ps sr ex db cur Hsel). simpl.
    split; [split; [discriminate | tauto] |].
    split; [split; [discriminate | tauto] |].
    split; [tauto |]. intros _. eexists. split; [reflexivity | exact Hid].
  - unfold update_reservation. rewrite Hsel. simpl.
    apply find_id_none in Hsel.
    destruct (no_row_cases rid) as [[Hr ->] | [Hr ->]]; rewrite Hr;
      (split; [| split; [| split]]); try tauto;
      split; try discriminate; intros [_ H]; discriminate H.
Qed.

(** X4.  PartialUpdate is idempotent: repeating a successful update with the
    same arguments returns the same record and leaves the database as the
    first one left it. *)
Theorem update_reservation_idempotent :
  forall (rid : Z) (ps sr ex : option string) (db db1 : DB) (r1 : Reservation),
    update_reservation rid ps sr ex db = (Ok r1, db1) ->
    update_reservation rid ps sr ex db1 = (Ok r1, db1).
Proof.
  intros rid ps sr ex db db1 r1 Hup.
  destruct (select_by_id rid db) as [cur|] eqn:Hsel.
  - rewrite (update_reservation_found rid ps sr ex db cur Hsel) in Hup.
    injection Hup as <- <-.
    pose proof (select_after_update
                  (py_or ps (payment_status (booking cur)))
                  (if_not_none sr (special_requests (booking cur)))
                  (if_not_none ex (experiences (booking cur)))
                  rid db cur Hsel) as Hsel1.
    rewrite (update_reservation_found rid ps sr ex _ _ Hsel1). simpl.
    rewrite py_or_absorb, !if_not_none_absorb, update_by_id_twice. reflexivity.
  - unfold update_reservation in Hup. rewrite Hsel in Hup. discriminate Hup.
Qed.

Lemma update_reservation_idempotent_witness :
  exists (r1 : Reservation) (db1 : DB),
    update_reservation 1 (Some "paid") (Some "") None same_second_db = (Ok r1, db1)
    /\ update_reservation 1 (Some "paid") (Some "") None db1 = (Ok r1, db1).
Proof.
  eexists. eexists. split; [reflexivity |].
  apply (update_reservation_idempotent 1 (Some "paid") (Some "") None same_second_db).
  reflexivity.
Defined.

(** ** Delete *)

Lemma filter_negb_id_twice (rid : Z) (rs : list Reservation) :
  filter (fun r => negb (id r =? rid)) (filter (fun r => negb (id r =? rid)) rs)
  = filter (fun r => negb (id r =? rid)) rs.
Proof.
  induction rs as [|x rs IH]; simpl; [reflexivity |].
  destruct (negb (id x =? rid)) eqn:Hx; simpl; [rewrite Hx, IH |]; auto.
Qed.

Lemma delete_reservation_rows (rid : Z) (db : DB) :
  snd (delete_reservation rid db)
  = mkDB (filter (fun r => negb (id r =? rid)) (rows db)) (seq db).
Proof.
  unfold delete_reservation, delete_by_id. destruct (_ =? 0); reflexivity.
Qed.

Lemma not_in_ids_after_delete (rid : Z) (rs : list Reservation) :
  ~ In rid (map id (filter (fun r => negb (id r =? rid)) rs)).
Proof.
  intros Hin. apply in_map_iff in Hin. destruct Hin as (r & Hid & Hin).
  apply filter_In in Hin. destruct Hin as [_ Hne].
  rewrite Hid, Z.eqb_refl in Hne. discriminate Hne.
Qed.

(** X5.  After Delete, whether it succeeded or not, GetById of the id and
    a second Delete of the id both fail, and the second Delete changes
    nothing: with NotFound for an id within the range of an SQLite INTEGER,
    with the driver's OverflowError for an id outside it. *)
Theorem delete_reservation_twice :
  forall (rid : Z) (db : DB),
    (int64 rid = true ->
     get_reservation rid (snd (delete_reservation rid db)) = Err NotFound
     /\ delete_reservation rid (snd (delete_reservation rid db))
        = (Err NotFound, snd (delete_reservation rid db)))
    /\ (int64 rid = false ->
        get_reservation rid (snd (delete_reservation rid db)) = Err OverflowError
        /\ delete_reservation rid (snd (delete_reservation rid db))
           = (Err OverflowError, snd (delete_reservation rid db))).
Proof.
  intros rid db. rewrite delete_reservation_rows.
  pose proof (not_in_ids_after_delete rid (rows db)) as Hn.
  assert (Hget : get_reservation rid
                   (mkDB (filter (fun r => negb (id r =? rid)) (rows db)) (seq db))
                 = Err (no_row rid)).
  { unfold get_reservation, select_by_id. simpl. now rewrite find_after_delete. }
  assert (Hdel : delete_reservation rid
                   (mkDB (filter (fun r => negb (id r =? rid)) (rows db)) (seq db))
                 = (Err (no_row rid),
                    mkDB (filter (fun r => negb (id r =? rid)) (rows db)) (seq db))).
  { unfold delete_reservation, delete_by_id. simpl.
    rewrite (filter_id_none rid _ Hn), filter_negb_id_twice. reflexivity. }
  rewrite Hget, Hdel. unfold no_row.
  split; intros ->; split; reflexivity.
Qed.

Lemma find_other_id_after_delete (rid rid' : Z) (rs : list Reservation) :
  rid' <> rid ->
  find (fun r => id r =? rid') (filter (fun r => negb (id r =? rid)) rs)
  = find (fun r => id r =? rid') rs.
Proof.
  intros Hne. induction rs as [|x rs IH]; simpl; [reflexivity |].
  destruct (Z.eqb_spec (id x) rid) as [Hx | Hx]; simpl.
  - destruct (Z.eqb_spec (id x) rid'); [congruence | exact IH].
  - destruct (id x =? rid'); [reflexivity | exact IH].
Qed.

(** X6.  Delete of one id does not change what GetById answers for any
    other id. *)
Theorem delete_reservation_keeps_other_ids :
  forall (rid rid' : Z) (db : DB),
    rid' <> rid ->
    get_reservation rid' (snd (delete_reservation rid db)) = get_reservation rid' db.
Proof.
  intros rid rid' db Hne. rewrite delete_reservation_rows.
  unfold get_reservation, select_by_id. simpl.
  now rewrite find_other_id_after_delete.
Qed.

Lemma delete_reservation_keeps_other_ids_witness :
  get_reservation 2 (snd (delete_reservation 1 same_second_db))
  = get_reservation 2 same_second_db.
Proof.
  apply (delete_reservation_keeps_other_ids 1 2 same_second_db). discriminate.
Defined.

Lemma filter_id_unique_length (rid : Z) (rs : list Reservation) :
  NoDup (map id rs) -> In rid (map id rs) ->
  S (List.length (filter (fun r => negb (id r =? rid)) rs)) = List.length rs.
Proof.
  induction rs as [|x rs IH]; simpl; intros Hnd Hin; [contradiction |].
  inversion Hnd as [|? ? Hx Hnd']; subst.
  destruct (Z.eqb_spec (id x) rid) as [Heq | Hne]; simpl.
  - subst rid. now rewrite (filter_id_all (id x) rs Hx).
  - f_equal. apply IH; [exact Hnd' | tauto].
Qed.

(** X7.  Under the PRIMARY KEY constraint a successful Delete removes
    exactly one row. *)
Theorem delete_reservation_removes_one_row :
  forall (rid : Z) (db : DB),
    primary_key db ->
    In rid (map id (rows db)) ->
    S (List.length (rows (snd (delete_reservation rid db)))) = List.length (rows db).
Proof.
  intros rid db Hpk Hin. rewrite delete_reservation_rows. simpl.
  now apply filter_id_unique_length.
Qed.

Lemma delete_reservation_removes_one_row_witness :
  S (List.length (rows (snd (delete_reservation 2 same_second_db)))) = 2%nat.
Proof.
  apply (delete_reservation_removes_one_row 2 same_second_db
           primary_key_same_second_db).
  simpl. right. left. reflexivity.
Defined.

(** ** Create *)







(** ** Cleanup *)

Section Cleanup.
Context {E : Env}.

Lemma filter_expired_after_cleanup (today : string) (rs : list Reservation) :
  filter (expired today) (filter (fun r => negb (expired today r)) rs) = [].
Proof.
  induction rs as [|x rs IH]; simpl; [reflexivity |].
  destruct (expired today x) eqn:Hx; simpl; [| rewrite Hx]; exact IH.
Qed.

Lemma filter_kept_implies {A : Type} (f g : A -> bool) (l : list A) :
  (forall x, In x l -> g x = true -> f x = true) ->
  filter f (filter g l) = filter g l.
Proof.
  induction l as [|x l IH]; simpl; intros Himp; [reflexivity |].
  destruct (g x) eqn:Hg; simpl.
  - rewrite (Himp x (or_introl eq_refl) Hg). f_equal. apply IH.
    intros y Hy. apply Himp. now right.
  - apply IH. intros y Hy. apply Himp. now right.
Qed.

Lemma string_lt_le_trans (d t t' : string) :
  (d <? t)%string = true -> (t <=? t')%string = true -> (d <? t')%string = true.
Proof.
  unfold String.ltb, String.leb. intros Hlt Hle.
  destruct (String.compare d t) eqn:Hdt; try discriminate Hlt.
  assert (Htd : String.compare t d = Gt).
  { rewrite String.compare_antisym, Hdt. reflexivity. }
  assert (Ht't : String.compare t' t <> Lt).
  { rewrite String.compare_antisym. destruct (String.compare t t'); simpl; congruence. }
  assert (Hge : String.compare t' d <> Lt).
  { apply (string_compare_ge_trans t' t d); congruence. }
  rewrite String.compare_antisym.
  destruct (String.compare t' d) eqn:Ht'd; simpl; try congruence.
  apply String.compare_eq_iff in Ht'd. subst t'.
  rewrite String.compare_antisym, Hdt in Hle. simpl in Hle. discriminate Hle.
Qed.

Lemma expired_later (t t' : string) (r : Reservation) :
  (t <=? t')%string = true -> expired t r = true -> expired t' r = true.
Proof.
  intros Hle. rewrite !expired_iff. intros (d & Hd & Hlt).
  exists d. split; [exact Hd |]. now apply (string_lt_le_trans d t t').
Qed.

Lemma find_id_filter_kept (f : Reservation -> bool) (rid : Z) (rs : list Reservation)
    (r : Reservation) :
  find (fun x => id x =? rid) rs = Some r -> f r = true ->
  find (fun x => id x =? rid) (filter f rs) = Some r.
Proof.
  induction rs as [|x rs IH]; simpl; intros Hf Hr; [discriminate |].
  destruct (id x =? rid) eqn:Hx.
  - injection Hf as ->. rewrite Hr. simpl. now rewrite Hx.
  - destruct (f x); simpl; [rewrite Hx |]; now apply IH.
Qed.

Lemma substring_prefix_app (d s : string) :
  substring 0 (String.length d) (d ++ s) = d.
Proof.
  induction d as [|c d IH]; simpl.
  - destruct s; reflexivity.
  - now rewrite IH.
Qed.

End Cleanup.

(** X10.  Cleanup is idempotent on every store: a second run on the same
    date reports 0 matched and 0 deleted and leaves the database as the first
    run left it. *)
Theorem cleanup_expired_idempotent :
  forall (E : Env) (today : string) (db : DB),
    cleanup_expired_reservations today today
      (snd (cleanup_expired_reservations today today db))
    = (mkCleanupBody "ok" 0 0, snd (cleanup_expired_reservations today today db)).
Proof.
  intros E today db. rewrite !cleanup_expired_unfold. simpl.
  rewrite filter_expired_after_cleanup. simpl.
  rewrite (filter_kept_implies (fun r => negb (expired today r))
             (fun r => negb (expired today r)) (rows db)); [reflexivity |].
  intros x _ Hx. exact Hx.
Qed.

(** X11.  A record whose check_out does not begin with a text that
    [date] reads, so that the date is NULL, is never deleted by Cleanup,
    whatever the current date. *)
Theorem cleanup_expired_keeps_unreadable_dates :
  forall (E : Env) (today_count today_delete : string) (db : DB) (r : Reservation),
    sql_date (substr_1 (check_out (booking r)) 10) = None ->
    In r (rows db) ->
    In r (rows (snd (cleanup_expired_reservations today_count today_delete db))).
Proof.
  intros E t1 t2 db r Hnull Hin. rewrite cleanup_expired_unfold. simpl.
  apply filter_In. split; [exact Hin |].
  unfold expired. now rewrite Hnull.
Qed.

Lemma cleanup_expired_keeps_unreadable_dates_witness :
  In (mkReservation 1 (with_check_out "next week" sample_payload) "2020-01-01T00:00:00")
    (rows (snd (cleanup_expired_reservations (E := iso_env) "2024-03-10" "2024-03-10"
                  (mkDB [mkReservation 1 (with_check_out "next week" sample_payload)
                           "2020-01-01T00:00:00"] 1)))).
Proof.
  apply (cleanup_expired_keeps_unreadable_dates iso_env).
  - reflexivity.
  - simpl. left. reflexivity.
Defined.

(** X12.  Cleanup on a date followed by Cleanup on the same or a later
    date leaves the rows that Cleanup on the later date alone leaves: what an
    earlier date deletes, a later date deletes too. *)
Theorem cleanup_expired_later_date_absorbs :
  forall (E : Env) (t t' : string) (db : DB),
    (t <=? t')%string = true ->
    snd (cleanup_expired_reservations t' t'
           (snd (cleanup_expired_reservations t t db)))
    = snd (cleanup_expired_reservations t' t' db).
Proof.
  intros E t t' db Hle. rewrite !cleanup_expired_unfold. simpl. f_equal.
  induction (rows db) as [|x rs IH]; simpl; [reflexivity |].
  destruct (expired t x) eqn:Hx; simpl.
  - rewrite (expired_later t t' x Hle Hx). simpl. exact IH.
  - destruct (expired t' x); simpl; [exact IH | now rewrite IH].
Qed.

Lemma cleanup_expired_later_date_absorbs_witness :
  snd (cleanup_expired_reservations (E := iso_env) "2024-03-12" "2024-03-12"
         (snd (cleanup_expired_reservations (E := iso_env) "2024-03-10" "2024-03-10"
                 two_stays_db)))
  = snd (cleanup_expired_reservations (E := iso_env) "2024-03-12" "2024-03-12"
           two_stays_db).
Proof.
  apply (cleanup_expired_later_date_absorbs iso_env "2024-03-10" "2024-03-12").
  reflexivity.
Defined.

(** X13.  After Cleanup, GetById still returns, unchanged, every record it
    returned before whose check-out date is not before the current date. *)
Theorem cleanup_expired_keeps_get :
  forall (E : Env) (today_count today_delete : string) (db : DB) (rid : Z)
         (r : Reservation),
    get_reservation rid db = Ok r ->
    ~ checks_out_before today_delete r ->
    get_reservation rid (snd (cleanup_expired_reservations today_count today_delete db))
    = Ok r.
Proof.
  intros E t1 t2 db rid r Hget Hkeep. rewrite cleanup_expired_unfold. simpl.
  unfold get_reservation, select_by_id in *. simpl.
  destruct (find (fun x => id x =? rid) (rows db)) as [x|] eqn:Hf;
    [| discriminate Hget].
  injection Hget as ->.
  rewrite (find_id_filter_kept (fun x => negb (expired t2 x)) rid (rows db) r Hf);
    [reflexivity |].
  rewrite <- expired_iff in Hkeep. destruct (expired t2 r); [| reflexivity].
  exfalso. now apply Hkeep.
Qed.

Lemma cleanup_expired_keeps_get_witness :
  exists r : Reservation,
    get_reservation 2 two_stays_db = Ok r
    /\ get_reservation 2
         (snd (cleanup_expired_reservations (E := iso_env) "2024-03-10" "2024-03-10"
                 two_stays_db))
       = Ok r.
Proof.
  eexists. split; [reflexivity |].
  apply (cleanup_expired_keeps_get iso_env); [reflexivity |].
  intros (d & Hd & Hlt). simpl in Hd. injection Hd as <-. discriminate Hlt.
Defined.

(** X14.  Cleanup reads only the first ten characters of check_out: a
    record whose check_out is a ten-character text followed by anything, such
    as a time of day, is treated as a record whose check_out is that text
    alone. *)
Theorem cleanup_expired_ignores_time_of_day :
  forall (E : Env) (today d rest : string) (r r' : Reservation),
    String.length d = 10%nat ->
    check_out (booking r) = d ->
    check_out (booking r') = (d ++ rest)%string ->
    expired today r' = expired today r.
Proof.
  intros E today d rest r r' Hlen Hr Hr'. unfold expired, substr_1.
  rewrite Hr, Hr', <- Hlen, substring_prefix_app.
  replace d with (d ++ "")%string at 3 by (clear; induction d; simpl; congruence).
  now rewrite substring_prefix_app.
Qed.

Lemma cleanup_expired_ignores_time_of_day_witness :
  expired (E := iso_env) "2024-03-10"
    (mkReservation 2 (with_check_out "2024-03-09 12:00" sample_payload) "2024-03-01T09:30:00")
  = expired (E := iso_env) "2024-03-10"
      (mkReservation 1 (with_check_out "2024-03-09" sample_payload) "2024-03-01T09:00:00").
Proof.
  apply (cleanup_expired_ignores_time_of_day iso_env "2024-03-10" "2024-03-09" " 12:00");
    reflexivity.
Defined.

(** ** The table over sequences of requests *)

Section Table.
Context {E : Env}.

Lemma post_reservation_cases (now : string) (body : ReservationCreate) (db : DB) :
  (exists r : Reservation,
      post_reservation now body db = (Ok r, mkDB (rows db ++ [r]) (next_rowid db))
      /\ id r = next_rowid db)
  \/ (exists e : failure, post_reservation now body db = (Err e, db)).
Proof.
  unfold post_reservation. destruct (EmailStr (guest_email body)) as [e|].
  - apply create_reservation_cases.
  - right. eexists. reflexivity.
Qed.

Lemma update_reservation_ids (rid : Z) (ps sr ex : option string) (db : DB) :
  map id (rows (snd (update_reservation rid ps sr ex db))) = map id (rows db).
Proof.
  destruct (select_by_id rid db) as [cur|] eqn:Hsel.
  - rewrite (update_reservation_found rid ps sr ex db cur Hsel). simpl.
    apply map_id_update.
  - unfold update_reservation. now rewrite Hsel.
Qed.

Lemma max_rowid_bound (rs : list Reservation) (s : Z) :
  0 <= s -> Forall (fun i => 0 < i <= s) (map id rs) -> max_rowid rs <= s.
Proof.
  intros Hs. induction rs as [|x rs IH]; simpl; intros Hall; [exact Hs |].
  inversion Hall as [|? ? Hx Hall']; subst. specialize (IH Hall'). lia.
Qed.

Lemma well_formed_next_rowid (db : DB) : well_formed db -> next_rowid db = seq db + 1.
Proof.
  intros (_ & Hall & Hs). pose proof (max_rowid_bound _ _ Hs Hall).
  unfold next_rowid. lia.
Qed.

Lemma sorted_ids_filter (f : Reservation -> bool) (rs : list Reservation) :
  StronglySorted Z.lt (map id rs) -> StronglySorted Z.lt (map id (filter f rs)).
Proof.
  induction rs as [|x rs IH]; simpl; intros Hs; [constructor |].
  inversion Hs as [|? ? Hrs Hx]; subst.
  destruct (f x); simpl; [| now apply IH].
  constructor; [now apply IH |].
  rewrite Forall_forall in *. intros i Hi. apply Hx.
  apply in_map_iff in Hi. destruct Hi as (y & <- & Hy).
  apply filter_In in Hy. apply in_map. tauto.
Qed.

Lemma bounded_ids_filter (P : Z -> Prop) (f : Reservation -> bool)
    (rs : list Reservation) :
  Forall P (map id rs) -> Forall P (map id (filter f rs)).
Proof.
  rewrite !Forall_forall. intros Hall i Hi. apply Hall.
  apply in_map_iff in Hi. destruct Hi as (y & <- & Hy).
  apply filter_In in Hy. apply in_map. tauto.
Qed.

Lemma well_formed_filter (f : Reservation -> bool) (db : DB) :
  well_formed db -> well_formed (mkDB (filter f (rows db)) (seq db)).
Proof.
  intros (Hs & Hall & Hseq). unfold well_formed. simpl.
  split; [now apply sorted_ids_filter |]. split; [now apply bounded_ids_filter | exact Hseq].
Qed.

(** Every handler keeps the table well formed. *)
Lemma handle_well_formed (q : request) (db : DB) :
  well_formed db -> well_formed (snd (handle q db)).
Proof.
  intros Hwf.
  destruct q as [now body | | rid | rid ps sr ex | rid | t1 t2]; simpl;
    try exact Hwf.
  - destruct (post_reservation_cases now body db) as [(r & Hpost & Hid) | (err & Hpost)];
      rewrite Hpost; simpl; [| exact Hwf].
    pose proof (well_formed_next_rowid db Hwf) as Hnext.
    destruct Hwf as (Hs & Hall & Hseq). unfold well_formed. simpl.
    rewrite map_app. simpl. rewrite Hid, Hnext.
    split; [| split; [| lia]].
    + apply StronglySorted_snoc; [exact Hs |].
      eapply Forall_impl; [| exact Hall]. simpl. intros i Hi. lia.
    + apply Forall_app. split.
      * eapply Forall_impl; [| exact Hall]. simpl. intros i Hi. lia.
      * constructor; [lia | constructor].
  - pose proof (update_reservation_ids rid ps sr ex db) as Hids.
    pose proof (update_reservation_seq rid ps sr ex db) as Hseq.
    destruct (update_reservation rid ps sr ex db) as [res db1]. simpl in *.
    destruct Hwf as (Hs & Hall & Hs0). unfold well_formed.
    rewrite Hids, Hseq. auto.
  - pose proof (delete_reservation_rows rid db) as Hdel.
    destruct (delete_reservation rid db) as [res db1]. simpl in *. subst db1.
    now apply well_formed_filter.
  - now apply well_formed_filter.
Qed.

Lemma handle_assigns_next (q : request) (db : DB) :
  well_formed db ->
  (assigned_ids [fst (handle q db)] = [] /\ seq (snd (handle q db)) = seq db)
  \/ (assigned_ids [fst (handle q db)] = [seq db + 1]
      /\ seq (snd (handle q db)) = seq db + 1).
Proof.
  intros Hwf.
  destruct q as [now body | | rid | rid ps sr ex | rid | t1 t2]; simpl;
    try (left; split; reflexivity).
  - destruct (post_reservation_cases now body db) as [(r & Hpost & Hid) | (err & Hpost)];
      rewrite Hpost; simpl.
    + right. rewrite Hid, (well_formed_next_rowid db Hwf). split; reflexivity.
    + left. split; reflexivity.
  - left. pose proof (update_reservation_seq rid ps sr ex db) as Hseq.
    destruct (update_reservation rid ps sr ex db). split; [reflexivity | exact Hseq].
  - left. pose proof (delete_reservation_seq rid db) as Hseq.
    destruct (delete_reservation rid db). split; [reflexivity | exact Hseq].
Qed.

Lemma same_outside_notes_trans (a b c : Reservation) :
  same_outside_notes a b -> same_outside_notes b c -> same_outside_notes a c.
Proof.
  unfold same_outside_notes. intros Hab Hbc.
  decompose [and] Hab. decompose [and] Hbc. repeat split; congruence.
Qed.

Lemma handle_frame (q : request) (db : DB) (r' : Reservation) :
  In r' (rows (snd (handle q db))) -> id r' <= seq db ->
  exists r : Reservation, In r (rows db) /\ same_outside_notes r r'.
Proof.
  intros Hin Hid.
  assert (Hsame : In r' (rows db) ->
                  exists r, In r (rows db) /\ same_outside_notes r r').
  { intros H. exists r'. split; [exact H | apply same_outside_notes_refl]. }
  destruct q as [now body | | rid | rid ps sr ex | rid | t1 t2]; cbn [handle] in Hin;
    try (apply Hsame; exact Hin).
  - destruct (post_reservation_cases now body db) as [(r & Hpost & Hr) | (err & Hpost)];
      rewrite Hpost in Hin; simpl in Hin; [| now apply Hsame].
    apply in_app_or in Hin. destruct Hin as [Hin | [<- | []]]; [now apply Hsame |].
    pose proof (next_rowid_above_seq db). lia.
  - destruct (select_by_id rid db) as [cur|] eqn:Hsel.
    + rewrite (update_reservation_found rid ps sr ex db cur Hsel) in Hin.
      simpl in Hin. apply in_map_iff in Hin. destruct Hin as (r & <- & Hr).
      exists r. split; [exact Hr |].
      destruct (id r =? rid); [apply set_notes_frame | apply same_outside_notes_refl].
    + unfold update_reservation in Hin. rewrite Hsel in Hin. now apply Hsame.
  - pose proof (delete_reservation_rows rid db) as Hdel.
    destruct (delete_reservation rid db) as [res db1]. simpl in *. subst db1.
    simpl in Hin. apply filter_In in Hin. apply Hsame. tauto.
  - simpl in Hin. apply filter_In in Hin. apply Hsame. tauto.
Qed.

End Table.

Lemma sorted_ids_NoDup (l : list Z) : StronglySorted Z.lt l -> NoDup l.
Proof.
  induction l as [|x l IH]; intros Hs; [constructor |].
  inversion Hs as [|? ? Hl Hx]; subst. constructor; [| now apply IH].
  intros Hin. rewrite Forall_forall in Hx. specialize (Hx x Hin). lia.
Qed.

(** X15.  Served from a well-formed table (the empty table is one), every
    sequence of requests leaves a well-formed table: rows in increasing id
    order, ids positive and at most the AUTOINCREMENT counter, hence
    unique. *)
Theorem serve_well_formed :
  forall (E : Env) (qs : list request) (db : DB),
    well_formed db ->
    well_formed (snd (serve qs db)) /\ primary_key (snd (serve qs db)).
Proof.
  intros E qs db Hwf.
  assert (H : well_formed (snd (serve qs db))).
  { revert db Hwf. induction qs as [|q qs IH]; intros db Hwf; [exact Hwf |].
    rewrite serve_cons. simpl. apply IH, handle_well_formed, Hwf. }
  split; [exact H |]. destruct H as (Hs & _). now apply sorted_ids_NoDup.
Qed.

Lemma well_formed_init_db : well_formed init_db.
Proof.
  unfold well_formed. simpl. split; [constructor | split; [constructor | lia]].
Defined.

Lemma serve_well_formed_witness :
  well_formed (snd (serve (E := iso_env) sample_history init_db))
  /\ primary_key (snd (serve (E := iso_env) sample_history init_db)).
Proof.
  apply (serve_well_formed iso_env sample_history init_db well_formed_init_db).
Defined.

(** X16.  Ids are handed out consecutively: over any sequence of requests
    served from a well-formed table with counter s, the successful creations
    get the ids s+1, s+2, ... in order, whatever was deleted in between, and
    the counter ends at the last of them. *)
Theorem serve_assigns_consecutive_ids :
  forall (E : Env) (qs : list request) (db : DB),
    well_formed db ->
    let ids := assigned_ids (fst (serve qs db)) in
    ids = map (fun k => seq db + Z.of_nat k) (List.seq 1 (List.length ids))
    /\ seq (snd (serve qs db)) = seq db + Z.of_nat (List.length ids).
Proof.
  intros E qs. induction qs as [|q qs IH]; intros db Hwf.
  - simpl. split; [reflexivity | lia].
  - cbv zeta. rewrite serve_cons. cbn [fst snd]. rewrite assigned_ids_cons.
    specialize (IH (snd (handle q db)) (handle_well_formed q db Hwf)).
    cbv zeta in IH. destruct IH as [IHids IHseq].
    destruct (handle_assigns_next q db Hwf) as [[Ha Hs] | [Ha Hs]];
      rewrite Ha; rewrite Hs in IHids, IHseq.
    + simpl. split; assumption.
    + cbn [app List.length]. split.
      * cbn [List.seq map]. f_equal.
        rewrite <- seq_shift, map_map. rewrite IHids at 1.
        apply map_ext. intros k. lia.
      * rewrite IHseq. lia.
Qed.

Lemma serve_assigns_consecutive_ids_witness :
  assigned_ids
    (fst (serve (E := iso_env)
            (sample_history ++
             [POST_reservations "2024-03-10T12:00:00.100000" sample_payload;
              POST_reservations "2024-03-10T12:00:00.200000" sample_payload])
            init_db))
  = [1; 2; 3].
Proof.
  destruct (serve_assigns_consecutive_ids iso_env
              (sample_history ++
               [POST_reservations "2024-03-10T12:00:00.100000" sample_payload;
                POST_reservations "2024-03-10T12:00:00.200000" sample_payload])
              init_db well_formed_init_db) as [Hids _].
  rewrite Hids. reflexivity.
Defined.

(** X17.  No sequence of requests changes the id, the created_at or any of
    the twelve booking columns other than payment_status, special_requests and
    experiences of a record: every row in the table after the requests whose
    id is at most the counter the requests started from is a row the table
    had at the start, up to those three columns. *)
Theorem serve_keeps_columns :
  forall (E : Env) (qs : list request) (db : DB) (r' : Reservation),
    In r' (rows (snd (serve qs db))) ->
    id r' <= seq db ->
    exists r : Reservation, In r (rows db) /\ same_outside_notes r r'.
Proof.
  intros E qs. induction qs as [|q qs IH]; intros db r' Hin Hid.
  - exists r'. split; [exact Hin | apply same_outside_notes_refl].
  - rewrite serve_cons in Hin. simpl in Hin.
    pose proof (handle_seq q db) as Hseq.
    destruct (IH (snd (handle q db)) r' Hin ltac:(lia)) as (r1 & Hr1 & Hsame1).
    assert (Hid1 : id r1 <= seq db).
    { destruct Hsame1 as (Heq & _). lia. }
    destruct (handle_frame q db r1 Hr1 Hid1) as (r & Hr & Hsame).
    exists r. split; [exact Hr |]. eapply same_outside_notes_trans; eassumption.
Qed.

Lemma serve_keeps_columns_witness :
  exists r : Reservation,
    In r (rows same_second_db)
    /\ same_outside_notes r
         (mkReservation 2
            (mkReservationCreate "Ada Yilmaz" "ada@example.com" None
               "2024-03-08" "2024-03-09" None (Some "11:00")
               "deluxe" 1 2 0 (S754_finite false 5 1) "paid"
               (Some "late arrival") (Some "spa"))
            "2024-03-10T12:00:00.200000").
Proof.
  apply (serve_keeps_columns iso_env
           [PATCH_reservation 2 (Some "paid") None (Some "spa");
            DELETE_reservation 1;
            POST_reservations "2024-03-10T12:00:05" sample_payload]
           same_second_db).
  - simpl. left. reflexivity.
  - vm_compute. discriminate.
Defined.

(** ** Requests that do not interfere *)

Lemma select_other_after_update (ps : string) (sr ex : option string) (rid rid' : Z)
    (db : DB) :
  rid' <> rid ->
  select_by_id rid' (update_by_id ps sr ex rid db) = select_by_id rid' db.
Proof.
  intros Hne. unfold select_by_id, update_by_id. simpl.
  induction (rows db) as [|x rs IH]; simpl; [reflexivity |].
  destruct (Z.eqb_spec (id x) rid) as [Hx | Hx]; simpl.
  - destruct (Z.eqb_spec (id x) rid'); [congruence | exact IH].
  - destruct (id x =? rid'); [reflexivity | exact IH].
Qed.

Lemma update_by_id_comm (ps1 ps2 : string) (sr1 ex1 sr2 ex2 : option string)
    (rid1 rid2 : Z) (db : DB) :
  rid1 <> rid2 ->
  update_by_id ps2 sr2 ex2 rid2 (update_by_id ps1 sr1 ex1 rid1 db)
  = update_by_id ps1 sr1 ex1 rid1 (update_by_id ps2 sr2 ex2 rid2 db).
Proof.
  intros Hne. unfold update_by_id. simpl. f_equal. rewrite !map_map.
  apply map_ext. intros r.
  destruct (Z.eqb_spec (id r) rid1) as [H1 | H1];
    destruct (Z.eqb_spec (id r) rid2) as [H2 | H2]; simpl.
  - congruence.
  - destruct (Z.eqb_spec (id r) rid2); [contradiction |].
    destruct (Z.eqb_spec (id r) rid1); [reflexivity | contradiction].
  - destruct (Z.eqb_spec (id r) rid2); [| contradiction].
    destruct (Z.eqb_spec (id r) rid1); [contradiction | reflexivity].
  - destruct (Z.eqb_spec (id r) rid2); [contradiction |].
    destruct (Z.eqb_spec (id r) rid1); [contradiction | reflexivity].
Qed.

Lemma update_reservation_snd (rid : Z) (ps sr ex : option string) (db : DB) :
  snd (update_reservation rid ps sr ex db)
  = match select_by_id rid db with
    | Some cur =>
        update_by_id (py_or ps (payment_status (booking cur)))
          (if_not_none sr (special_requests (booking cur)))
          (if_not_none ex (experiences (booking cur))) rid db
    | None => db
    end.
Proof.
  destruct (select_by_id rid db) as [cur|] eqn:Hsel.
  - now rewrite (update_reservation_found rid ps sr ex db cur Hsel).
  - unfold update_reservation. now rewrite Hsel.
Qed.

(** X18.  PartialUpdates of two different ids do not interfere: in either
    order they leave the same database, and the second answers what it would
    have answered alone. *)
Theorem update_reservation_commutes :
  forall (rid1 rid2 : Z) (ps1 sr1 ex1 ps2 sr2 ex2 : option string) (db : DB),
    rid1 <> rid2 ->
    snd (update_reservation rid2 ps2 sr2 ex2
           (snd (update_reservation rid1 ps1 sr1 ex1 db)))
    = snd (update_reservation rid1 ps1 sr1 ex1
             (snd (update_reservation rid2 ps2 sr2 ex2 db)))
    /\ fst (update_reservation rid2 ps2 sr2 ex2
              (snd (update_reservation rid1 ps1 sr1 ex1 db)))
       = fst (update_reservation rid2 ps2 sr2 ex2 db).
Proof.
  intros rid1 rid2 ps1 sr1 ex1 ps2 sr2 ex2 db Hne.
  assert (Hne' : rid2 <> rid1) by congruence.
  split.
  - rewrite !update_reservation_snd.
    destruct (select_by_id rid1 db) as [c1|] eqn:H1;
      destruct (select_by_id rid2 db) as [c2|] eqn:H2;
      rewrite ?(select_other_after_update _ _ _ rid1 rid2 db Hne'),
              ?(select_other_after_update _ _ _ rid2 rid1 db Hne),
              ?H1, ?H2; try reflexivity.
    now apply update_by_id_comm.
  - rewrite (update_reservation_snd rid1).
    destruct (select_by_id rid1 db) as [c1|] eqn:H1; [| reflexivity].
    destruct (select_by_id rid2 db) as [c2|] eqn:H2.
    + rewrite (update_reservation_found rid2 ps2 sr2 ex2 db c2 H2).
      rewrite (update_reservation_found rid2 ps2 sr2 ex2 _ c2);
        [reflexivity |].
      now rewrite select_other_after_update.
    + unfold update_reservation.
      rewrite (select_other_after_update _ _ _ rid1 rid2 db Hne'), H2. reflexivity.
Qed.

Lemma update_reservation_commutes_witness :
  snd (update_reservation 2 (Some "paid") None None
         (snd (update_reservation 1 None (Some "") None same_second_db)))
  = snd (update_reservation 1 None (Some "") None
           (snd (update_reservation 2 (Some "paid") None None same_second_db))).
Proof.
  apply (update_reservation_commutes 1 2 None (Some "") None (Some "paid") None None
           same_second_db).
  discriminate.
Defined.

Lemma filter_filter_comm {A : Type} (f g : A -> bool) (l : list A) :
  filter f (filter g l) = filter g (filter f l).
Proof.
  induction l as [|x l IH]; simpl; [reflexivity |].
  destruct (f x) eqn:Hf, (g x) eqn:Hg; simpl; rewrite ?Hf, ?Hg, IH; reflexivity.
Qed.

(** X19.  Delete and Cleanup commute: deleting an id before or after a
    Cleanup leaves the same database. *)
Theorem delete_cleanup_commute :
  forall (E : Env) (rid : Z) (today_count today_delete : string) (db : DB),
    snd (delete_reservation rid
           (snd (cleanup_expired_reservations today_count today_delete db)))
    = snd (cleanup_expired_reservations today_count today_delete
             (snd (delete_reservation rid db))).
Proof.
  intros E rid t1 t2 db.
  rewrite !delete_reservation_rows, !cleanup_expired_unfold. simpl.
  f_equal. apply filter_filter_comm.
Qed.

(** ** ListAll and GetById *)

(** X20.  ListAll and GetById agree: under the PRIMARY KEY constraint a
    record is in the listing exactly when GetById returns it for its id. *)
Theorem list_reservations_agrees_with_get :
  forall (E : Env) (db : DB) (r : Reservation),
    primary_key db ->
    (In r (list_reservations db) <-> get_reservation (id r) db = Ok r).
Proof.
  intros E db r Hpk.
  assert (Hperm : Permutation (rows db) (list_reservations db)).
  { unfold list_reservations, order_by_created_desc.
    rewrite <- (app_nil_r (rows db)) at 1. apply order_fold_perm. }
  unfold get_reservation, select_by_id. split.
  - intros Hin. apply (Permutation_in _ (Permutation_sym Hperm)) in Hin.
    destruct (find (fun x => id x =? id r) (rows db)) as [x|] eqn:Hf.
    + apply find_id_some in Hf. destruct Hf as [Hx Hid].
      now rewrite (unique_row (rows db) x r Hpk Hx Hin Hid).
    + apply find_id_none in Hf. exfalso. apply Hf. now apply in_map.
  - destruct (find (fun x => id x =? id r) (rows db)) as [x|] eqn:Hf;
      [| discriminate].
    intros Hok. injection Hok as ->. apply find_id_some in Hf.
    apply (Permutation_in _ Hperm). tauto.
Qed.

Lemma list_reservations_agrees_with_get_witness :
  In (mkReservation 1
        (mkReservationCreate "Ada Yilmaz" "ada@example.com" None
           "2024-03-08" "2024-03-09" None (Some "11:00")
           "deluxe" 1 2 0 (S754_finite false 5 1) "pending"
           (Some "late arrival") (Some ""))
        "2024-03-10T12:00:00.100000")
    (list_reservations (E := iso_env) same_second_db)
  <-> get_reservation 1 same_second_db
      = Ok (mkReservation 1
              (mkReservationCreate "Ada Yilmaz" "ada@example.com" None
                 "2024-03-08" "2024-03-09" None (Some "11:00")
                 "deluxe" 1 2 0 (S754_finite false 5 1) "pending"
                 (Some "late arrival") (Some ""))
              "2024-03-10T12:00:00.100000").
Proof.
  apply (list_reservations_agrees_with_get iso_env same_second_db
           (mkReservation 1
              (mkReservationCreate "Ada Yilmaz" "ada@example.com" None
                 "2024-03-08" "2024-03-09" None (Some "11:00")
                 "deluxe" 1 2 0 (S754_finite false 5 1) "pending"
                 (Some "late arrival") (Some ""))
              "2024-03-10T12:00:00.100000")
           primary_key_same_second_db).
Defined.
